(** * DataBase/Table.py: field descriptors, schema composition and
      entity instances

    A shallow embedding of [src/DataBase/Table.py].  Python objects that the
    module mutates and shares (field descriptors, classes) live in an explicit
    store and are referred to by address; everything else is a value.
    Functions that can raise return a [result]; functions that also touch the
    store are written in a state-and-exception monad. *)

From Stdlib Require Import ZArith String List Bool Lia.
From stdpp Require Import base option list strings.
Import ListNotations.
Local Open Scope string_scope.
Local Open Scope list_scope.

(** ** Python dictionaries

    A [dict] keeps insertion order, and the order in which
    [Table.__init__] walks [_fields] decides which error surfaces first, so
    dictionaries are association lists in insertion order. *)

Definition dict (V : Type) : Type := list (string * V).

Section Dict.
Context {V : Type}.

(** [d.get(k)] *)
Fixpoint dict_get (d : dict V) (k : string) : option V :=
  match d with
  | [] => None
  | (k', v) :: d' => if String.eqb k' k then Some v else dict_get d' k
  end.

(** [k in d] *)
Definition dict_mem (d : dict V) (k : string) : bool :=
  match dict_get d k with Some _ => true | None => false end.

(** [d[k] = v]: an existing key keeps its position, a new key goes last. *)
Fixpoint dict_set (d : dict V) (k : string) (v : V) : dict V :=
  match d with
  | [] => [(k, v)]
  | (k', v') :: d' =>
      if String.eqb k' k then (k', v) :: d' else (k', v') :: dict_set d' k v
  end.

(** [{**a, **b}] *)
Definition dict_update (a b : dict V) : dict V :=
  fold_left (fun acc kv => dict_set acc (fst kv) (snd kv)) b a.

(** [d.pop(k)] for its effect on [d] *)
Definition dict_pop (d : dict V) (k : string) : dict V :=
  List.filter (fun kv => negb (String.eqb (fst kv) k)) d.

(** [{k: v for k, v in d.items() if p(v)}] *)
Definition dict_filter (p : V -> bool) (d : dict V) : dict V :=
  List.filter (fun kv => p (snd kv)) d.

Definition dict_keys (d : dict V) : list string := map fst d.
Definition dict_values (d : dict V) : list V := map snd d.
End Dict.

(** ** Values *)

#[local] Set Warnings "-register-all".

Inductive pyval : Type :=
| PyNone
| PyBool (b : bool)
| PyInt (z : Z)
| PyStr (s : string)
| PyOpaque (id : nat)            (* any other object: a float, a date, an entity instance *)
| PyFunc (name : string)         (* a function defined in a class body *)
| PyBoundMethod (name : string)  (* that function read through an instance *)
| PyClass (c : nat)              (* reference to a class in the store *)
| PyField (a : nat)              (* reference to a field descriptor in the store *)
| PyFieldValue (field : pyval) (value : pyval)         (* a [_FieldValue] object *)
| PyForeignFieldValue (field : pyval) (value : pyval)  (* a [ForeignFieldValue] object *)
| PyDict (d : list (string * pyval)).

(** [v is None] *)
Definition is_None (v : pyval) : bool :=
  match v with PyNone => true | _ => false end.

(** ** Exceptions

    An f-string is kept as its literal pieces and the interpolated values. *)

Inductive fpart : Type :=
| Lit (s : string)
| Interp (v : pyval).

Definition fstring : Type := list fpart.

Inductive exn : Type :=
| NullConstraintException (msg : fstring)
| AttributeError (msg : fstring)
| TypeError (msg : fstring).

Inductive result (A : Type) : Type :=
| Ok (a : A)
| Raise (e : exn).
Arguments Ok {A} a.
Arguments Raise {A} e.

Definition rbind {A B} (r : result A) (k : A -> result B) : result B :=
  match r with
  | Ok a => k a
  | Raise e => Raise e
  end.

(** ** Field descriptors *)

Inductive field_class : Type :=
| _Field | _ForeignField
| TextField | IntegerField | RealField | DateField | DateTimeField
| OneToOneField | OneToManyField | ManyToOneField | ManyToManyField.

(** [cls.__name__] *)
Definition class_name (c : field_class) : string :=
  match c with
  | _Field => "_Field" | _ForeignField => "_ForeignField"
  | TextField => "TextField" | IntegerField => "IntegerField"
  | RealField => "RealField" | DateField => "DateField"
  | DateTimeField => "DateTimeField"
  | OneToOneField => "OneToOneField" | OneToManyField => "OneToManyField"
  | ManyToOneField => "ManyToOneField" | ManyToManyField => "ManyToManyField"
  end.

(** [issubclass(c, _ForeignField)] *)
Definition is_foreign_class (c : field_class) : bool :=
  match c with
  | _ForeignField | OneToOneField | OneToManyField
  | ManyToOneField | ManyToManyField => true
  | _ => false
  end.

Definition is_scalar_kind (c : field_class) : bool :=
  match c with
  | TextField | IntegerField | RealField | DateField | DateTimeField => true
  | _ => false
  end.

Definition is_relation_kind (c : field_class) : bool :=
  match c with
  | OneToOneField | OneToManyField | ManyToOneField | ManyToManyField => true
  | _ => false
  end.

(** A descriptor object.  [_other_cls] and [_source_cls] exist only on
    relation descriptors; on the others they stay [PyNone] and are never
    read. *)
Record field_obj : Type := mk_field {
  ob_class : field_class;
  default : pyval;
  allow_null : bool;
  unique : bool;
  _other_cls : pyval;
  _source_cls : pyval
}.

(** [object.__new__(cls)]: the object before [__init__] has run. *)
Definition new_field (cls : field_class) : field_obj :=
  mk_field cls PyNone true false PyNone PyNone.

(** In the constructors below the arguments carry a prime, so that
    [default self] keeps meaning the attribute [self.default]. *)
Module _Field.
Definition __init__ (self : field_obj) (default' : pyval)
    (allow_null' unique' : bool) : field_obj :=
  mk_field (ob_class self) default' allow_null' unique'
           (_other_cls self) (_source_cls self).
End _Field.

Module _ForeignField.
Definition __init__ (self : field_obj) (other default' : pyval)
    (allow_null' : bool) : field_obj :=
  let self := _Field.__init__ self default' allow_null' true in
  mk_field (ob_class self) (default self) (allow_null self) (unique self)
           other PyNone.

Definition set_source (self : field_obj) (source : pyval) : field_obj :=
  mk_field (ob_class self) (default self) (allow_null self) (unique self)
           (_other_cls self) source.
End _ForeignField.

(** The five scalar kinds only forward to [_Field.__init__]. *)
Module TextField.
Definition __init__ (self : field_obj) (default' : pyval)
    (allow_null' unique' : bool) : result field_obj :=
  Ok (_Field.__init__ self default' allow_null' unique').
End TextField.

Module IntegerField.
Definition __init__ (self : field_obj) (default' : pyval)
    (allow_null' unique' : bool) : result field_obj :=
  Ok (_Field.__init__ self default' allow_null' unique').
End IntegerField.

Module RealField.
Definition __init__ (self : field_obj) (default' : pyval)
    (allow_null' unique' : bool) : result field_obj :=
  Ok (_Field.__init__ self default' allow_null' unique').
End RealField.

Module DateField.
Definition __init__ (self : field_obj) (default' : pyval)
    (allow_null' unique' : bool) : result field_obj :=
  Ok (_Field.__init__ self default' allow_null' unique').
End DateField.

Module DateTimeField.
Definition __init__ (self : field_obj) (default' : pyval)
    (allow_null' unique' : bool) : result field_obj :=
  Ok (_Field.__init__ self default' allow_null' unique').
End DateTimeField.

(** The message of the declaration-time check; it interpolates the
    constructor's arguments. *)
Definition default_cannot_be (default' : pyval) (allow_null' : bool) : fstring :=
  [Lit "Default value cannot be "; Interp default';
   Lit " if allow_null="; Interp (PyBool allow_null'); Lit "."].

(** The four relation kinds run [_ForeignField.__init__] and then check that
    a descriptor that forbids null has a default. *)
Module OneToOneField.
Definition __init__ (self : field_obj) (other default' : pyval)
    (allow_null' : bool) : result field_obj :=
  let self := _ForeignField.__init__ self other default' allow_null' in
  if negb (allow_null self) && is_None (default self)
  then Raise (NullConstraintException (default_cannot_be default' allow_null'))
  else Ok self.
End OneToOneField.

Module OneToManyField.
Definition __init__ (self : field_obj) (other default' : pyval)
    (allow_null' : bool) : result field_obj :=
  let self := _ForeignField.__init__ self other default' allow_null' in
  if negb (allow_null self) && is_None (default self)
  then Raise (NullConstraintException (default_cannot_be default' allow_null'))
  else Ok self.
End OneToManyField.

Module ManyToOneField.
Definition __init__ (self : field_obj) (other default' : pyval)
    (allow_null' : bool) : result field_obj :=
  let self := _ForeignField.__init__ self other default' allow_null' in
  if negb (allow_null self) && is_None (default self)
  then Raise (NullConstraintException (default_cannot_be default' allow_null'))
  else Ok self.
End ManyToOneField.

Module ManyToManyField.
Definition __init__ (self : field_obj) (other default' : pyval)
    (allow_null' : bool) : result field_obj :=
  let self := _ForeignField.__init__ self other default' allow_null' in
  if negb (allow_null self) && is_None (default self)
  then Raise (NullConstraintException (default_cannot_be default' allow_null'))
  else Ok self.
End ManyToManyField.

(** ** The store *)

(** A class object.  [cls_mro] is [__mro__] without the class itself, which
    always comes first. *)
Record class_obj : Type := mk_class {
  cls_name : string;
  cls_bases : list nat;
  cls_mro : list nat;
  cls_dict : dict pyval
}.

Record state : Type := mk_state {
  heap : list field_obj;     (* field descriptors, by address *)
  classes : list class_obj   (* classes, by identifier *)
}.

(** Computations that read and write the store and may raise.  A raise keeps
    the store as it is at that moment: nothing is rolled back. *)
Definition M (A : Type) : Type := state -> state * result A.

Definition ret {A} (a : A) : M A := fun st => (st, Ok a).
Definition raise {A} (e : exn) : M A := fun st => (st, Raise e).
Definition bind {A B} (m : M A) (k : A -> M B) : M B :=
  fun st =>
    match m st with
    | (st', Ok a) => k a st'
    | (st', Raise e) => (st', Raise e)
    end.
(** A computation that only reads the store. *)
Definition read {A} (f : state -> result A) : M A := fun st => (st, f st).
Definition modify (f : state -> state) : M unit := fun st => (f st, Ok tt).

Declare Scope py_scope.
Delimit Scope py_scope with py.
Notation "'let*' x := c 'in' k" := (bind c (fun x => k))
  (at level 10, x pattern, c at level 100, k at level 200) : py_scope.
Notation "c ;; k" := (bind c (fun _ => k))
  (at level 100, k at level 200, right associativity) : py_scope.

(** The descriptor a value refers to, if it is one. *)
Definition field_of (st : state) (v : pyval) : option field_obj :=
  match v with
  | PyField a => heap st !! a
  | _ => None
  end.

(** [isinstance(v, _Field)]: [v] is a reference to a descriptor object. *)
Definition isinstance_Field (v : pyval) : bool :=
  match v with PyField _ => true | _ => false end.

(** [isinstance(v, _ForeignField)] *)
Definition isinstance_ForeignField (st : state) (v : pyval) : bool :=
  match field_of st v with
  | Some f => is_foreign_class (ob_class f)
  | None => false
  end.

(** [isinstance(v, _FieldValue)].  [ForeignFieldValue] does not derive from
    [_FieldValue]. *)
Definition isinstance_FieldValue (v : pyval) : bool :=
  match v with PyFieldValue _ _ => true | _ => false end.

Definition no_attribute (v : pyval) (name : string) : exn :=
  AttributeError [Interp v; Lit " object has no attribute "; Lit name].

(** [v.default] *)
Definition getattr_default (st : state) (v : pyval) : result pyval :=
  match field_of st v with
  | Some f => Ok (default f)
  | None => Raise (no_attribute v "default")
  end.

(** ** Value containers *)

Definition cannot_set (f : field_obj) (value : pyval) : fstring :=
  [Lit "Cannot set field "; Interp (PyStr (class_name (ob_class f)));
   Lit " to "; Interp value;
   Lit " if allow_null="; Interp (PyBool (allow_null f)); Lit "."].

(** [_FieldValue.__init__] and [ForeignFieldValue.__init__] have the same
    body in the source and are transcribed separately.  [and] evaluates
    [self._field.allow_null] only when [self.value is None]. *)
Module _FieldValue.
Definition __init__ (st : state) (field value : pyval) (use_default : bool)
    : result pyval :=
  rbind (if negb use_default then Ok value else getattr_default st field)
    (fun value =>
       if is_None value then
         match field_of st field with
         | None => Raise (no_attribute field "allow_null")
         | Some f =>
             if negb (allow_null f)
             then Raise (NullConstraintException (cannot_set f value))
             else Ok (PyFieldValue field value)
         end
       else Ok (PyFieldValue field value)).
End _FieldValue.

Module ForeignFieldValue.
Definition __init__ (st : state) (field value : pyval) (use_default : bool)
    : result pyval :=
  rbind (if negb use_default then Ok value else getattr_default st field)
    (fun value =>
       if is_None value then
         match field_of st field with
         | None => Raise (no_attribute field "allow_null")
         | Some f =>
             if negb (allow_null f)
             then Raise (NullConstraintException (cannot_set f value))
             else Ok (PyForeignFieldValue field value)
         end
       else Ok (PyForeignFieldValue field value)).
End ForeignFieldValue.

(** [self.value] of either container *)
Definition container_value (v : pyval) : option pyval :=
  match v with
  | PyFieldValue _ value | PyForeignFieldValue _ value => Some value
  | _ => None
  end.

(** ** Classes: what the module uses of [type] *)

(** Attribute lookup along a linearisation. *)
Fixpoint mro_lookup (st : state) (mro : list nat) (name : string) : option pyval :=
  match mro with
  | [] => None
  | b :: mro' =>
      match classes st !! b with
      | Some B =>
          match dict_get (cls_dict B) name with
          | Some v => Some v
          | None => mro_lookup st mro' name
          end
      | None => mro_lookup st mro' name
      end
  end.

(** [cls.name] for a class attribute: the class's own namespace, then its
    ancestors in [__mro__] order. *)
Definition type_getattr (st : state) (c : nat) (name : string) : option pyval :=
  match classes st !! c with
  | Some C =>
      match dict_get (cls_dict C) name with
      | Some v => Some v
      | None => mro_lookup st (cls_mro C) name
      end
  | None => None
  end.

(** [cls.name = v]: always written into the class's own namespace. *)
Definition type_setattr (c : nat) (name : string) (v : pyval) (st : state) : state :=
  mk_state (heap st)
    (alter (fun C => mk_class (cls_name C) (cls_bases C) (cls_mro C)
                              (dict_set (cls_dict C) name v))
           c (classes st)).

(** The C3 merge of [type.__new__].  Every round removes one class from the
    sequences, so a fuel above their total length never runs out. *)
Fixpoint c3_merge (fuel : nat) (seqs : list (list nat)) : option (list nat) :=
  match fuel with
  | O => None
  | S fuel =>
      let seqs := List.filter (fun s => negb (Nat.eqb (length s) 0)) seqs in
      match seqs with
      | [] => Some []
      | _ =>
          let in_a_tail h := existsb (fun s => existsb (Nat.eqb h) (tl s)) seqs in
          match List.find (fun h => negb (in_a_tail h)) (concat (map (firstn 1) seqs)) with
          | None => None
          | Some h =>
              let drop s := match s with
                            | x :: s' => if Nat.eqb x h then s' else s
                            | [] => []
                            end in
              option_map (cons h) (c3_merge fuel (map drop seqs))
          end
      end
  end.

(** [__mro__] of an existing class, the class first. *)
Definition full_mro (st : state) (c : nat) : option (list nat) :=
  option_map (fun C => c :: cls_mro C) (classes st !! c).

Fixpoint all_some {A} (l : list (option A)) : option (list A) :=
  match l with
  | [] => Some []
  | Some a :: l' => option_map (cons a) (all_some l')
  | None :: _ => None
  end.

(** [type.__new__(mcs, name, bases, namespace)]: linearise the bases, put the
    new class in the store and return its identifier.  An empty [bases]
    stands for the implicit base [object], whose attributes are not
    modelled. *)
Definition type_new (name : string) (bases : list nat)
    (namespace : dict pyval) : M nat :=
  fun st =>
    match all_some (map (full_mro st) bases) with
    | None => (st, Raise (TypeError [Lit "bases must be types"]))
    | Some mros =>
        let seqs := mros ++ [bases] in
        match c3_merge (S (length (concat seqs))) seqs with
        | None =>
            (st, Raise (TypeError
              [Lit "Cannot create a consistent method resolution order (MRO)"]))
        | Some mro =>
            (mk_state (heap st)
                      (classes st ++ [mk_class name bases mro namespace]),
             Ok (length (classes st)))
        end
    end.

(** Evaluating a constructor call such as [TextField(...)]: when [__init__]
    returns, the new descriptor is in the store and its address is the value
    of the call. *)
Definition alloc (r : result field_obj) : M pyval :=
  fun st =>
    match r with
    | Ok f => (mk_state (heap st ++ [f]) (classes st), Ok (PyField (length (heap st))))
    | Raise e => (st, Raise e)
    end.

(** [field.set_source(source)] on the object [field] refers to. *)
Definition call_set_source (field source : pyval) (st : state) : state :=
  match field with
  | PyField a =>
      mk_state (alter (fun f => _ForeignField.set_source f source) a (heap st))
               (classes st)
  | _ => st
  end.

(** ** The schema composer *)

Module _TableMeta.

(** [for base in bases: base_attrs = {**base_attrs, **base._fields}] *)
Fixpoint merge_bases (st : state) (bases : list nat) (base_attrs : dict pyval)
    : result (dict pyval) :=
  match bases with
  | [] => Ok base_attrs
  | base :: bases' =>
      match type_getattr st base "_fields" with
      | Some (PyDict d) => merge_bases st bases' (dict_update base_attrs d)
      | Some v => Raise (TypeError [Interp v; Lit " object is not a mapping"])
      | None => Raise (no_attribute (PyClass base) "_fields")
      end
  end.

(** [for key, value in attrs.items():
       if not isinstance(value, _Field) and key not in new_attrs.keys():
           new_attrs[key] = value] *)
Definition pass_through (attrs new_attrs : dict pyval) : dict pyval :=
  fold_left
    (fun new_attrs kv =>
       if negb (isinstance_Field (snd kv)) && negb (dict_mem new_attrs (fst kv))
       then dict_set new_attrs (fst kv) (snd kv)
       else new_attrs)
    attrs new_attrs.

(** [for field in new_attrs["_fields"].values():
       if isinstance(field, _ForeignField): field.set_source(newCls)] *)
Definition bind_sources (newCls : nat) (fields : list pyval) (st : state) : state :=
  fold_left
    (fun st field =>
       if isinstance_ForeignField st field
       then call_set_source field (PyClass newCls) st
       else st)
    fields st.

(** The class keyword arguments [**kwargs] are only forwarded to
    [type.__new__] and are left out. *)
Definition __new__ (name : string) (bases : list nat) (attrs : dict pyval) : M nat :=
  fun st =>
    match merge_bases st bases [] with
    | Raise e => (st, Raise e)
    | Ok base_attrs =>
        let _fields :=
          dict_filter isinstance_Field (dict_update base_attrs attrs) in
        let new_attrs := pass_through attrs [("_fields", PyDict _fields)] in
        match type_new name bases new_attrs st with
        | (st, Raise e) => (st, Raise e)
        | (st, Ok newCls) =>
            (bind_sources newCls (dict_values _fields) st, Ok newCls)
        end
    end.

End _TableMeta.

(** A class statement [class name(bases): body] with [_TableMeta] as the
    metaclass.  The body is a sequence of assignments; the namespace handed
    to the metaclass is what they leave behind. *)
Definition namespace_of (body : list (string * pyval)) : dict pyval :=
  dict_update [] body.

Definition class_statement (name : string) (bases : list nat)
    (body : list (string * pyval)) : M nat :=
  _TableMeta.__new__ name bases (namespace_of body).

(** The resolved field set of a class: its [_fields] attribute. *)
Definition resolved_fields (st : state) (c : nat) : dict pyval :=
  match type_getattr st c "_fields" with
  | Some (PyDict d) => d
  | _ => []
  end.

(** ** Entity instances *)

Record instance : Type := mk_instance {
  inst_class : nat;          (* [__class__] *)
  inst_dict : dict pyval     (* [__dict__] *)
}.

(** [object.__getattribute__(self, item)].  [__class__], [__dict__] and
    [__weakref__] are data descriptors of every such instance and come first;
    then the instance's own [__dict__]; then the class, where a function is
    bound on the way out. *)
Definition object_getattribute (st : state) (self : instance) (item : string)
    : result pyval :=
  if String.eqb item "__class__" then Ok (PyClass (inst_class self))
  else if String.eqb item "__dict__" then Ok (PyDict (inst_dict self))
  else if String.eqb item "__weakref__" then Ok PyNone
  else
    match dict_get (inst_dict self) item with
    | Some v => Ok v
    | None =>
        match type_getattr st (inst_class self) item with
        | Some (PyFunc f) => Ok (PyBoundMethod f)
        | Some v => Ok v
        | None => Raise (no_attribute (PyClass (inst_class self)) item)
        end
    end.

(** [setattr(self, name, v)] where [v] is a value container: the three data
    descriptors refuse it, every other name lands in [__dict__]. *)
Definition object_setattr (self : instance) (name : string) (v : pyval)
    : result instance :=
  if String.eqb name "__class__"
  then Raise (TypeError [Lit "__class__ must be set to a class"])
  else if String.eqb name "__dict__"
  then Raise (TypeError [Lit "__dict__ must be set to a dictionary"])
  else if String.eqb name "__weakref__"
  then Raise (AttributeError [Lit "attribute '__weakref__' is not writable"])
  else Ok (mk_instance (inst_class self) (dict_set (inst_dict self) name v)).

(** [kwargs.keys()[i]]: a [dict_keys] view has no [__getitem__]. *)
Definition dict_keys_getitem (keys : list string) (i : Z) : result pyval :=
  Raise (TypeError [Lit "'dict_keys' object is not subscriptable"]).

(** [v + 1] as [_count += 1] needs it.  Objects kept opaque are taken not to
    support the addition. *)
Definition add_one (v : pyval) : result pyval :=
  match v with
  | PyInt z => Ok (PyInt (z + 1))
  | PyBool b => Ok (PyInt (Z.b2z b + 1))
  | _ => Raise (TypeError [Lit "unsupported operand type(s) for +=: ";
                           Interp v; Lit " and 'int'"])
  end.

Module Table.

(** [fields(self)]: [return self.__class__._fields] *)
Definition fields (st : state) (self : instance) : result pyval :=
  match type_getattr st (inst_class self) "_fields" with
  | Some v => Ok v
  | None => Raise (no_attribute (PyClass (inst_class self)) "_fields")
  end.

(** [field_names(self)]: [return self.__class__._fields.keys()] *)
Definition field_names (st : state) (self : instance) : result (list string) :=
  rbind (fields st self)
    (fun v => match v with
              | PyDict d => Ok (dict_keys d)
              | _ => Raise (no_attribute v "keys")
              end).

(** [__getattribute__(self, item)] *)
Definition __getattribute__ (st : state) (self : instance) (item : string)
    : result pyval :=
  rbind (object_getattribute st self item)
    (fun value =>
       match value with
       | PyFieldValue _ wrapped => Ok wrapped   (* isinstance(value, _FieldValue) *)
       | _ => Ok value
       end).

(** The loop of [__init__] over [self.fields().items()].  It only reads the
    store; it returns [self] with the containers set and what is left of
    [kwargs]. *)
Fixpoint set_fields (st : state) (items : dict pyval) (self : instance)
    (kwargs : dict pyval) : result (instance * dict pyval) :=
  match items with
  | [] => Ok (self, kwargs)
  | (field_name, field) :: items' =>
      rbind
        match dict_get kwargs field_name with
        | Some value =>                       (* field_name in kwargs.keys() *)
            rbind (if isinstance_ForeignField st field
                   then ForeignFieldValue.__init__ st field value false
                   else _FieldValue.__init__ st field value false)
              (fun container =>
                 rbind (object_setattr self field_name container)
                   (fun self => Ok (self, dict_pop kwargs field_name)))
        | None =>
            rbind (if isinstance_ForeignField st field
                   then ForeignFieldValue.__init__ st field PyNone true
                   else _FieldValue.__init__ st field PyNone true)
              (fun container =>
                 rbind (object_setattr self field_name container)
                   (fun self => Ok (self, kwargs)))
        end
        (fun '(self, kwargs) => set_fields st items' self kwargs)
  end.

(** [__init__(self, *args, **kwargs)].  The result is [self] as the body
    leaves it. *)
Definition __init__ (self : instance) (args : list pyval) (kwargs : dict pyval)
    : M instance :=
  (let cls := inst_class self in
   (* self.__class__._count += 1 *)
   let* count := read (fun st =>
     match type_getattr st cls "_count" with
     | Some v => Ok v
     | None => Raise (no_attribute (PyClass cls) "_count")
     end) in
   let* count := read (fun _ => add_one count) in
   modify (type_setattr cls "_count" count) ;;
   match args with
   | arg0 :: _ =>                              (* len(args) != 0 *)
       raise (AttributeError [Lit "Got unexpected parameter "; Interp arg0; Lit "."])
   | [] =>
       let* fields := read (fun st => fields st self) in
       match fields with
       | PyDict items =>
           let* (self, kwargs) := read (fun st => set_fields st items self kwargs) in
           match kwargs with
           | _ :: _ =>                         (* len(kwargs) != 0 *)
               let* key := read (fun _ => dict_keys_getitem (dict_keys kwargs) 0) in
               raise (AttributeError [Lit "Cannot set value for "; Interp key;
                                      Lit ": Field does not exist."])
           | [] => ret self
           end
       | v => raise (no_attribute v "items")
       end
   end)%py.

(** The body of [__init__] run on a fresh instance with an empty [__dict__]:
    what a call of the class does once its arguments are bound. *)
Definition new (cls : nat) (args : list pyval) (kwargs : dict pyval) : M instance :=
  __init__ (mk_instance cls []) args kwargs.

(** The call [cls( *args, **kwargs)] itself.  The arguments are bound to
    [def __init__(self, *args, **kwargs)] first: the instance takes [self],
    so a keyword named [self] is refused with [TypeError] before the body
    runs; every other keyword goes to [kwargs]. *)
Definition binding_error : exn :=
  TypeError [Lit "Table.__init__() got multiple values for argument 'self'"].

Definition call (cls : nat) (args : list pyval) (kwargs : dict pyval) : M instance :=
  if dict_mem kwargs "self"
  then raise binding_error
  else new cls args kwargs.

(** The body of [class Table(metaclass=_TableMeta)], in the order of the
    source, once [_id = IntegerField(unique=True)] has been evaluated to
    [_id]; the entries Python adds on its own ([__module__], [__qualname__],
    [__annotations__]) are not fields and are left out. *)
Definition body (_id : pyval) : list (string * pyval) :=
  [("_id", _id);
   ("_fields", PyDict []);
   ("_registered_to", PyNone);
   ("_count", PyInt 0);
   ("__init__", PyFunc "__init__");
   ("fields", PyFunc "fields");
   ("field_names", PyFunc "field_names");
   ("__getattribute__", PyFunc "__getattribute__")].

Definition define : M nat :=
  (let* _id := alloc (IntegerField.__init__ (new_field IntegerField) PyNone true true) in
   class_statement "Table" [] (body _id))%py.

End Table.

Definition empty_state : state := mk_state [] [].

(** ** One round of the loop of [Table.__init__] *)

(** The value a field ends up with: the caller's, or the default. *)
Definition resolve (st : state) (field : pyval) (supplied : option pyval)
    : result pyval :=
  match supplied with
  | Some value => Ok value
  | None => getattr_default st field
  end.

(** The container object for a descriptor: relation descriptors get a
    [ForeignFieldValue], the others a [_FieldValue]. *)
Definition wrap (st : state) (field value : pyval) : pyval :=
  if isinstance_ForeignField st field
  then PyForeignFieldValue field value
  else PyFieldValue field value.

(** The four constructor calls of the loop body, by what [kwargs] holds for
    the field. *)
Definition field_container (st : state) (field : pyval) (supplied : option pyval)
    : result pyval :=
  match supplied with
  | Some value =>
      if isinstance_ForeignField st field
      then ForeignFieldValue.__init__ st field value false
      else _FieldValue.__init__ st field value false
  | None =>
      if isinstance_ForeignField st field
      then ForeignFieldValue.__init__ st field PyNone true
      else _FieldValue.__init__ st field PyNone true
  end.

(** ** Construction succeeds

    [accepts st items kwargs]: every field of [items] can be given its
    container and stored.  The value is the caller's if [kwargs] has the name
    and the descriptor's default otherwise; it has to be non-null unless the
    descriptor allows null. *)
Definition writable (name : string) : bool :=
  negb (String.eqb name "__class__") && negb (String.eqb name "__dict__")
  && negb (String.eqb name "__weakref__").

Definition accepts_field (st : state) (kwargs : dict pyval)
    (item : string * pyval) : bool :=
  match field_of st (snd item) with
  | Some f =>
      writable (fst item)
      && match dict_get kwargs (fst item) with
         | Some value => negb (is_None value) || allow_null f
         | None => negb (is_None (default f)) || allow_null f
         end
  | None => false
  end.

Definition accepts (st : state) (items kwargs : dict pyval) : bool :=
  forallb (accepts_field st kwargs) items.

(** ** Programs *)

(** A class statement that was executed. *)
Record class_def : Type := mk_class_def {
  cd_name : string;
  cd_bases : list nat;
  cd_body : list (string * pyval)
}.

(** A class body can only mention descriptors that exist. *)
Definition body_wf (st : state) (body : list (string * pyval)) : Prop :=
  forall k a, In (k, PyField a) body -> a < length (heap st).

(** [built log st]: [st] is reached from the empty store by creating
    descriptors, defining entity types and constructing instances, in any
    order; [log] lists the class statements that succeeded, so that the
    [c]-th entry is the statement that defined class [c]. *)
Inductive built : list class_def -> state -> Prop :=
| built_empty : built [] empty_state
| built_alloc log st f st' v :
    built log st ->
    alloc (Ok f) st = (st', Ok v) ->
    built log st'
| built_class log st d st' c :
    built log st ->
    body_wf st (cd_body d) ->
    class_statement (cd_name d) (cd_bases d) (cd_body d) st = (st', Ok c) ->
    built (log ++ [d]) st'
| built_new log st cls args kwargs st' r :
    built log st ->
    Table.new cls args kwargs st = (st', r) ->
    built log st'.

(** [ancestor log a c]: [a] is [c] or is reached from [c] through bases. *)
Inductive ancestor (log : list class_def) : nat -> nat -> Prop :=
| ancestor_self c : ancestor log c c
| ancestor_base a b c d :
    log !! c = Some d ->
    In b (cd_bases d) ->
    ancestor log a b ->
    ancestor log a c.

(** [declares log c k v]: the body of class [c] leaves [k] bound to [v]. *)
Definition declares (log : list class_def) (c : nat) (k : string) (v : pyval) : Prop :=
  exists d, log !! c = Some d /\ dict_get (namespace_of (cd_body d)) k = Some v.

(** [mentions fields a]: the descriptor at address [a] is one of [fields]. *)
Definition mentions (fields : list pyval) (a : nat) : bool :=
  existsb (fun v => match v with PyField a' => Nat.eqb a' a | _ => false end)
          fields.

(** [holds st c a]: the resolved field set of class [c] has the descriptor at
    address [a] among its values. *)
Definition holds (st : state) (c a : nat) : bool :=
  mentions (dict_values (resolved_fields st c)) a.

(** The field sets of the bases, merged in order. *)
Definition merged_bases (st : state) (bases : list nat) : dict pyval :=
  fold_left (fun base_attrs base => dict_update base_attrs (resolved_fields st base))
            bases [].

(** The most recently defined class that holds the descriptor at [a]. *)
Definition last_holder (st : state) (a : nat) : option nat :=
  List.find (fun c => holds st c a) (rev (seq 0 (length (classes st)))).

(** ** What [Table.__init__] computes

    The counter is written first; everything after it only reads the store.
    So the final store is the initial one with the counter written, and the
    result can be read off the initial store. *)
Definition init_outcome (st : state) (cls : nat) (args : list pyval)
    (kwargs : dict pyval) : result instance :=
  match args with
  | arg0 :: _ =>
      Raise (AttributeError [Lit "Got unexpected parameter "; Interp arg0; Lit "."])
  | [] =>
      match type_getattr st cls "_fields" with
      | None => Raise (no_attribute (PyClass cls) "_fields")
      | Some (PyDict items) =>
          match Table.set_fields st items (mk_instance cls []) kwargs with
          | Raise e => Raise e
          | Ok (self, []) => Ok self
          | Ok (self, _ :: _) =>
              Raise (TypeError [Lit "'dict_keys' object is not subscriptable"])
          end
      | Some v => Raise (no_attribute v "items")
      end
  end.


(** ** Scripts

    A script is a sequence of statements: a descriptor constructor call that
    returned [f], a class statement, an instance construction.  [run] executes
    it and keeps the log of class statements; it stops at a class statement
    that raises or that mentions a descriptor that does not exist. *)
Inductive stmt : Type :=
| NewField (f : field_obj)
| Class (d : class_def)
| New (cls : nat) (args : list pyval) (kwargs : dict pyval).

Definition body_wfb (st : state) (body : list (string * pyval)) : bool :=
  forallb (fun kv => match snd kv with
                     | PyField a => Nat.ltb a (length (heap st))
                     | _ => true
                     end) body.

Fixpoint run (script : list stmt) (log : list class_def) (st : state)
    : option (list class_def * state) :=
  match script with
  | [] => Some (log, st)
  | NewField f :: script' => run script' log (fst (alloc (Ok f) st))
  | Class d :: script' =>
      if body_wfb st (cd_body d) then
        match class_statement (cd_name d) (cd_bases d) (cd_body d) st with
        | (st', Ok _) => run script' (log ++ [d]) st'
        | (_, Raise _) => None
        end
      else None
  | New cls args kwargs :: script' =>
      run script' log (fst (Table.new cls args kwargs st))
  end.

(** ** The scenarios of the specification

    [Table]; [Person] with [name = TextField("anon", allow_null=False)] and
    [age = IntegerField(0)]; [Dog(Person)] redeclaring [age] as a
    [RealField] with default 1.5; [Profile] with a relation [owner] to
    [Person]; [PublicProfile(Profile)], which inherits [owner]; and
    [Robot(Person)], whose body rebinds [name] to a plain string. *)
Definition float_1_5 : pyval := PyOpaque 0.

Definition f_id : field_obj := mk_field IntegerField PyNone true true PyNone PyNone.
Definition f_name : field_obj := mk_field TextField (PyStr "anon") false false PyNone PyNone.
Definition f_age : field_obj := mk_field IntegerField (PyInt 0) true false PyNone PyNone.
Definition f_dog_age : field_obj := mk_field RealField float_1_5 true false PyNone PyNone.
Definition f_owner : field_obj := mk_field OneToOneField PyNone true true (PyClass 1) PyNone.

Definition c_Table : nat := 0.
Definition c_Person : nat := 1.
Definition c_Dog : nat := 2.
Definition c_Profile : nat := 3.
Definition c_PublicProfile : nat := 4.
Definition c_Robot : nat := 5.

Definition d_Table : class_def := mk_class_def "Table" [] (Table.body (PyField 0)).
Definition d_Person : class_def :=
  mk_class_def "Person" [c_Table] [("name", PyField 1); ("age", PyField 2)].
Definition d_Dog : class_def :=
  mk_class_def "Dog" [c_Person] [("age", PyField 3)].
Definition d_Profile : class_def :=
  mk_class_def "Profile" [c_Table] [("owner", PyField 4)].
Definition d_PublicProfile : class_def :=
  mk_class_def "PublicProfile" [c_Profile] [("visible", PyBool true)].
Definition d_Robot : class_def :=
  mk_class_def "Robot" [c_Person] [("name", PyStr "R2")].

Definition example_script : list stmt :=
  [NewField f_id; Class d_Table;
   NewField f_name; NewField f_age; Class d_Person;
   NewField f_dog_age; Class d_Dog;
   NewField f_owner; Class d_Profile; Class d_PublicProfile;
   Class d_Robot].

Definition example_log : list class_def :=
  [d_Table; d_Person; d_Dog; d_Profile; d_PublicProfile; d_Robot].

Definition example_state : state :=
  match run example_script [] empty_state with
  | Some (_, st) => st
  | None => empty_state
  end.

(** Constructions on the scenario, with the store they leave behind. *)
Definition after (r : state * result instance) : state := fst r.

Definition built_instance (r : state * result instance) : instance :=
  match snd r with
  | Ok self => self
  | Raise _ => mk_instance 0 []
  end.

(** [Person(age=5)] *)
Definition person_5 : state * result instance :=
  Table.new c_Person [] [("age", PyInt 5)] example_state.

(** [Profile(owner=o)] for some object [o] *)
Definition some_person : pyval := PyOpaque 7.
Definition profile_of : state * result instance :=
  Table.new c_Profile [] [("owner", some_person)] example_state.

(** ** Invariants of reachable stores *)

(** Every class has its own [_fields]: a dictionary with distinct names whose
    values are descriptors that exist. *)
Definition fields_wf (st : state) : Prop :=
  forall c C, classes st !! c = Some C ->
    exists d,
      dict_get (cls_dict C) "_fields" = Some (PyDict d)
      /\ List.NoDup (dict_keys d)
      /\ forall k v, In (k, v) d -> exists a, v = PyField a /\ a < length (heap st).

(** The resolved field set of every class is still what the composer made of
    its statement: the bases' sets merged in order, the body laid over them,
    the non-descriptors dropped.  Bases are defined before the class. *)
Definition composed (log : list class_def) (st : state) : Prop :=
  length log = length (classes st)
  /\ forall c d, log !! c = Some d ->
       resolved_fields st c
       = dict_filter isinstance_Field
           (dict_update (merged_bases st (cd_bases d)) (namespace_of (cd_body d)))
       /\ forall b, In b (cd_bases d) -> b < c.

(** A relation descriptor's source is the most recently defined class that
    holds it. *)
Definition sources_bound (st : state) : Prop :=
  forall a f c,
    heap st !! a = Some f ->
    is_foreign_class (ob_class f) = true ->
    last_holder st a = Some c ->
    _source_cls f = PyClass c.

(** The store just before [class PublicProfile(Profile)] is executed. *)
Definition before_PublicProfile : state :=
  match run (firstn 9 example_script) [] empty_state with
  | Some (_, st) => st
  | None => empty_state
  end.

(** ** Classes that keep the construction protocol

    The embedding runs the functions of [Table] itself.  That is what the
    program does for a class on which [__init__], [fields] and
    [__getattribute__] still resolve to those functions (a function is
    identified by its name; another function, also one a subclass defines
    under the same attribute, carries another name) and which rebinds none of
    the names the construction of an instance depends on. *)
Definition keeps_protocol (st : state) (cls : nat) : bool :=
  forallb (fun name => match type_getattr st cls name with
                       | Some (PyFunc f) => String.eqb f name
                       | _ => false
                       end)
          ["__init__"; "fields"; "__getattribute__"]
  && forallb (fun name => match type_getattr st cls name with
                          | None => true
                          | Some _ => false
                          end)
             ["__new__"; "__setattr__"; "__class__"; "__dict__"; "__weakref__"].

(** [Person(self=1)] *)
Definition person_self : state * result instance :=
  Table.call c_Person [] [("self", PyInt 1)] example_state.

(** * Properties *)

(** ** Dictionaries *)

Section DictFacts.
Context {V : Type}.
Implicit Types (d a b : dict V) (k : string) (v : V).

Lemma dict_get_set_eq d k v : dict_get (dict_set d k v) k = Some v.
Proof.
  induction d as [|[k' v'] d IH]; simpl.
  - now rewrite String.eqb_refl.
  - destruct (String.eqb k' k) eqn:E; simpl; rewrite E; auto.
Qed.

Lemma dict_get_set_ne d k k' v :
  k <> k' -> dict_get (dict_set d k v) k' = dict_get d k'.
Proof.
  intros Hne. induction d as [|[k0 v0] d IH]; simpl.
  - destruct (String.eqb_spec k k'); congruence.
  - destruct (String.eqb_spec k0 k) as [->|Hk0]; simpl.
    + destruct (String.eqb_spec k k'); congruence.
    + destruct (String.eqb_spec k0 k'); auto.
Qed.

Lemma dict_get_In d k v : dict_get d k = Some v -> In (k, v) d.
Proof.
  induction d as [|[k' v'] d IH]; simpl; [discriminate|].
  destruct (String.eqb_spec k' k) as [->|]; intros H.
  - injection H as ->. now left.
  - right. auto.
Qed.

Lemma dict_get_None_keys d k : dict_get d k = None <-> ~ In k (dict_keys d).
Proof.
  induction d as [|[k' v'] d IH]; simpl; [tauto|].
  destruct (String.eqb_spec k' k) as [->|Hne].
  - split; [discriminate|]. intros H. exfalso. apply H. now left.
  - rewrite IH. split; intros H; [|tauto].
    intros [?|?]; [congruence|tauto].
Qed.

Lemma dict_mem_keys d k : dict_mem d k = true <-> In k (dict_keys d).
Proof.
  unfold dict_mem. destruct (dict_get d k) as [v|] eqn:E.
  - split; [intros _|reflexivity].
    apply dict_get_In in E. change k with (fst (k, v)). now apply in_map.
  - split; [discriminate|]. intros H.
    apply dict_get_None_keys in E. contradiction.
Qed.

Lemma In_dict_get d k v :
  List.NoDup (dict_keys d) -> In (k, v) d -> dict_get d k = Some v.
Proof.
  induction d as [|[k' v'] d IH]; simpl; [tauto|].
  intros Hnd [Heq|Hin].
  - injection Heq as -> ->. now rewrite String.eqb_refl.
  - inversion Hnd as [|? ? Hnotin Hnd']; subst.
    destruct (String.eqb_spec k' k) as [->|]; auto.
    exfalso. apply Hnotin. apply in_map_iff. exists (k, v). auto.
Qed.

Lemma dict_keys_set d k v :
  forall k', In k' (dict_keys (dict_set d k v)) <-> k' = k \/ In k' (dict_keys d).
Proof.
  intros k'. induction d as [|[k0 v0] d IH]; simpl.
  - intuition.
  - destruct (String.eqb_spec k0 k) as [->|]; simpl; intuition.
Qed.

Lemma dict_set_NoDup d k v : List.NoDup (dict_keys d) -> List.NoDup (dict_keys (dict_set d k v)).
Proof.
  induction d as [|[k0 v0] d IH]; simpl; intros Hnd.
  - constructor; [intros []|constructor].
  - inversion Hnd as [|? ? Hnotin Hnd']; subst.
    destruct (String.eqb_spec k0 k) as [->|Hne]; simpl.
    + now constructor.
    + constructor; [|auto].
      intros Hin. apply dict_keys_set in Hin. destruct Hin; [congruence|tauto].
Qed.

Lemma dict_update_NoDup a b : List.NoDup (dict_keys a) -> List.NoDup (dict_keys (dict_update a b)).
Proof.
  unfold dict_update. revert a.
  induction b as [|[k v] b IH]; simpl; intros a Ha; [assumption|].
  apply IH. now apply dict_set_NoDup.
Qed.

(** [{**a, **b}] has the keys of both; a key of [b] takes [b]'s (last)
    value, any other key keeps [a]'s. *)
Lemma dict_get_update a b k :
  dict_get (dict_update a b) k =
  match dict_get (rev b) k with
  | Some v => Some v
  | None => dict_get a k
  end.
Proof.
  unfold dict_update. revert a.
  induction b as [|[k0 v0] b IH]; simpl; intros a; [reflexivity|].
  rewrite IH. clear IH.
  assert (Happ : forall l, dict_get (l ++ [(k0, v0)]) k =
            match dict_get l k with
            | Some v => Some v
            | None => if String.eqb k0 k then Some v0 else None
            end).
  { induction l as [|[k1 v1] l IHl]; simpl; [reflexivity|].
    destruct (String.eqb k1 k); auto. }
  rewrite Happ. destruct (dict_get (rev b) k); [reflexivity|].
  destruct (String.eqb_spec k0 k) as [->|Hne].
  - apply dict_get_set_eq.
  - now apply dict_get_set_ne.
Qed.

Lemma dict_get_rev d k :
  List.NoDup (dict_keys d) -> dict_get (rev d) k = dict_get d k.
Proof.
  intros Hnd. destruct (dict_get d k) as [v|] eqn:E.
  - apply In_dict_get.
    + unfold dict_keys. rewrite map_rev. apply List.NoDup_rev. exact Hnd.
    + apply in_rev. rewrite rev_involutive. now apply dict_get_In.
  - apply dict_get_None_keys. apply dict_get_None_keys in E.
    unfold dict_keys in *. rewrite map_rev. intros Hin. apply E.
    now apply in_rev.
Qed.

Lemma dict_get_filter (p : V -> bool) d k :
  List.NoDup (dict_keys d) ->
  dict_get (dict_filter p d) k =
  match dict_get d k with
  | Some v => if p v then Some v else None
  | None => None
  end.
Proof.
  induction d as [|[k0 v0] d IH]; simpl; intros Hnd; [reflexivity|].
  inversion Hnd as [|? ? Hnotin Hnd']; subst.
  destruct (String.eqb_spec k0 k) as [->|Hne].
  - destruct (p v0) eqn:Ep; simpl.
    + now rewrite String.eqb_refl.
    + rewrite (IH Hnd').
      apply dict_get_None_keys in Hnotin. now rewrite Hnotin.
  - destruct (p v0); simpl; [|now apply IH].
    destruct (String.eqb_spec k0 k); [congruence|]. now apply IH.
Qed.

Lemma dict_filter_keys_incl (p : V -> bool) d k :
  In k (dict_keys (dict_filter p d)) -> In k (dict_keys d).
Proof.
  unfold dict_keys, dict_filter. rewrite !in_map_iff.
  intros [x [Hx Hin]]. apply filter_In in Hin. exists x. tauto.
Qed.

Lemma dict_filter_NoDup (p : V -> bool) d :
  List.NoDup (dict_keys d) -> List.NoDup (dict_keys (dict_filter p d)).
Proof.
  induction d as [|[k0 v0] d IH]; simpl; intros Hnd; [constructor|].
  inversion Hnd as [|? ? Hnotin Hnd']; subst.
  destruct (p v0); simpl; [|auto].
  constructor; [|auto].
  intros Hin. apply Hnotin. now apply (dict_filter_keys_incl p).
Qed.

Lemma dict_get_pop_ne d k k' :
  k <> k' -> dict_get (dict_pop d k) k' = dict_get d k'.
Proof.
  intros Hne. induction d as [|[k0 v0] d IH]; simpl; [reflexivity|].
  destruct (String.eqb_spec k0 k) as [->|Hk0]; simpl.
  - destruct (String.eqb_spec k k'); [congruence|assumption].
  - destruct (String.eqb k0 k'); auto.
Qed.

Lemma dict_get_pop_eq d k : dict_get (dict_pop d k) k = None.
Proof.
  induction d as [|[k0 v0] d IH]; simpl; [reflexivity|].
  destruct (String.eqb_spec k0 k) as [->|Hk0]; simpl; [assumption|].
  destruct (String.eqb_spec k0 k); [congruence|assumption].
Qed.

Lemma dict_values_In d k v : dict_get d k = Some v -> In v (dict_values d).
Proof.
  intros H. apply dict_get_In in H.
  unfold dict_values. change v with (snd (k, v)). now apply in_map.
Qed.

End DictFacts.

(** ** The store under [type_setattr] *)

Lemma field_of_ext st st' v : heap st = heap st' -> field_of st v = field_of st' v.
Proof. intros H. destruct v; simpl; try reflexivity. now rewrite H. Qed.

Lemma isinstance_ForeignField_ext st st' v :
  heap st = heap st' -> isinstance_ForeignField st v = isinstance_ForeignField st' v.
Proof. intros H. unfold isinstance_ForeignField. now rewrite (field_of_ext st st'). Qed.

Lemma FieldValue_init_ext st st' field value use_default :
  heap st = heap st' ->
  _FieldValue.__init__ st field value use_default
  = _FieldValue.__init__ st' field value use_default.
Proof.
  intros H. unfold _FieldValue.__init__, getattr_default.
  now rewrite !(field_of_ext st st' _ H).
Qed.

Lemma ForeignFieldValue_init_ext st st' field value use_default :
  heap st = heap st' ->
  ForeignFieldValue.__init__ st field value use_default
  = ForeignFieldValue.__init__ st' field value use_default.
Proof.
  intros H. unfold ForeignFieldValue.__init__, getattr_default.
  now rewrite !(field_of_ext st st' _ H).
Qed.

Lemma set_fields_ext st st' items self kwargs :
  heap st = heap st' ->
  Table.set_fields st items self kwargs = Table.set_fields st' items self kwargs.
Proof.
  intros H. revert self kwargs.
  induction items as [|[k field] items IH]; intros self kwargs; simpl; [reflexivity|].
  rewrite (isinstance_ForeignField_ext st st' field H).
  destruct (dict_get kwargs k) as [value|];
    rewrite (FieldValue_init_ext st st' _ _ _ H),
            (ForeignFieldValue_init_ext st st' _ _ _ H);
    match goal with
    | |- rbind ?x _ = rbind ?x _ => destruct x as [[s kw]|e]; simpl; auto
    end.
Qed.

Lemma own_dict_setattr c name v st c' :
  (cls_dict <$> classes (type_setattr c name v st) !! c')
  = ((fun C => if Nat.eqb c c' then dict_set (cls_dict C) name v else cls_dict C)
       <$> classes st !! c').
Proof.
  unfold type_setattr; simpl.
  destruct (Nat.eqb_spec c c') as [->|Hne].
  - rewrite list_lookup_alter. case_decide; [|congruence].
    now destruct (classes st !! c').
  - rewrite list_lookup_alter_ne by assumption. reflexivity.
Qed.

Lemma own_get_setattr_ne c name v st c' name' :
  name <> name' ->
  ((fun C => dict_get (cls_dict C) name') <$> classes (type_setattr c name v st) !! c')
  = ((fun C => dict_get (cls_dict C) name') <$> classes st !! c').
Proof.
  intros Hne. pose proof (own_dict_setattr c name v st c') as H.
  destruct (classes (type_setattr c name v st) !! c') as [C'|];
    destruct (classes st !! c') as [C|]; simpl in *; try discriminate; [|reflexivity].
  injection H as H. rewrite H.
  destruct (Nat.eqb c c'); [|reflexivity].
  now rewrite dict_get_set_ne.
Qed.

Lemma mro_lookup_setattr_ne c name v st mro name' :
  name <> name' ->
  mro_lookup (type_setattr c name v st) mro name' = mro_lookup st mro name'.
Proof.
  intros Hne. induction mro as [|b mro IH]; cbn [mro_lookup]; [reflexivity|].
  pose proof (own_get_setattr_ne c name v st b name' Hne) as H.
  destruct (classes (type_setattr c name v st) !! b) as [B'|];
    destruct (classes st !! b) as [B|]; cbn in H; try discriminate; [|assumption].
  injection H as H. rewrite H, IH. reflexivity.
Qed.

Lemma cls_mro_setattr c name v st c' :
  (cls_mro <$> classes (type_setattr c name v st) !! c')
  = (cls_mro <$> classes st !! c').
Proof.
  unfold type_setattr; simpl.
  destruct (Nat.eq_dec c c') as [->|Hne].
  - rewrite list_lookup_alter. case_decide; [|congruence].
    now destruct (classes st !! c').
  - now rewrite list_lookup_alter_ne.
Qed.

(** Writing one class attribute leaves every other name as it was, on every
    class. *)
Lemma type_getattr_setattr_ne c name v st c' name' :
  name <> name' ->
  type_getattr (type_setattr c name v st) c' name' = type_getattr st c' name'.
Proof.
  intros Hne. unfold type_getattr.
  pose proof (own_get_setattr_ne c name v st c' name' Hne) as Hown.
  pose proof (cls_mro_setattr c name v st c') as Hmro.
  destruct (classes (type_setattr c name v st) !! c') as [C'|];
    destruct (classes st !! c') as [C|]; simpl in *; try discriminate; [|reflexivity].
  injection Hown as Hown. injection Hmro as Hmro.
  rewrite Hown, Hmro, mro_lookup_setattr_ne by assumption. reflexivity.
Qed.

(** Writing a class attribute and reading it back on that class. *)
Lemma type_getattr_setattr_eq c name v st :
  c < length (classes st) ->
  type_getattr (type_setattr c name v st) c name = Some v.
Proof.
  intros Hlt. unfold type_getattr.
  pose proof (own_dict_setattr c name v st c) as H.
  destruct (lookup_lt_is_Some_2 (classes st) c Hlt) as [C HC].
  rewrite HC, Nat.eqb_refl in H.
  destruct (classes (type_setattr c name v st) !! c) as [C'|]; [|discriminate].
  cbn in H. injection H as H. now rewrite H, dict_get_set_eq.
Qed.

Lemma type_getattr_Some_lt st c name v :
  type_getattr st c name = Some v -> c < length (classes st).
Proof.
  unfold type_getattr. destruct (classes st !! c) eqn:E; [|discriminate].
  intros _. apply lookup_lt_Some in E. exact E.
Qed.

Lemma Table_new_unfold cls args kwargs st :
  Table.new cls args kwargs st =
  match type_getattr st cls "_count" with
  | None => (st, Raise (no_attribute (PyClass cls) "_count"))
  | Some v =>
      match add_one v with
      | Raise e => (st, Raise e)
      | Ok v' => (type_setattr cls "_count" v' st, init_outcome st cls args kwargs)
      end
  end.
Proof.
  unfold Table.new, Table.__init__, bind, read, modify, raise, ret; simpl.
  destruct (type_getattr st cls "_count") as [v|]; [|reflexivity].
  destruct (add_one v) as [v'|e]; [|reflexivity].
  unfold init_outcome. destruct args as [|arg0 args]; [|reflexivity].
  unfold Table.fields; simpl.
  rewrite type_getattr_setattr_ne by discriminate.
  destruct (type_getattr st cls "_fields") as [fs|]; [|reflexivity].
  destruct fs; try reflexivity.
  rewrite (set_fields_ext (type_setattr cls "_count" v' st) st) by reflexivity.
  destruct (Table.set_fields st d (mk_instance cls []) kwargs) as [[self kw]|e];
    [|reflexivity].
  destruct kw; reflexivity.
Qed.

(** ** The loop of [Table.__init__] *)

Lemma dict_pop_absent {V} (d : dict V) k : dict_get d k = None -> dict_pop d k = d.
Proof.
  induction d as [|[k0 v0] d IH]; simpl; [reflexivity|].
  destruct (String.eqb_spec k0 k) as [->|Hne]; [discriminate|].
  intros H. simpl. now rewrite IH.
Qed.

(** One round: build the container, store it, drop the name from [kwargs]. *)
Lemma set_fields_cons st k field items self kwargs :
  Table.set_fields st ((k, field) :: items) self kwargs =
  rbind (field_container st field (dict_get kwargs k))
    (fun container =>
       rbind (object_setattr self k container)
         (fun self => Table.set_fields st items self (dict_pop kwargs k))).
Proof.
  cbn [Table.set_fields]. unfold field_container.
  destruct (dict_get kwargs k) as [value|] eqn:E.
  - destruct (isinstance_ForeignField st field);
      match goal with
      | |- rbind (rbind ?x _) _ = _ => destruct x as [c|e]; simpl; [|reflexivity]
      end; destruct (object_setattr self k c); reflexivity.
  - rewrite (dict_pop_absent kwargs k E).
    destruct (isinstance_ForeignField st field);
      match goal with
      | |- rbind (rbind ?x _) _ = _ => destruct x as [c|e]; simpl; [|reflexivity]
      end; destruct (object_setattr self k c); reflexivity.
Qed.

(** What a round's constructor call returns. *)
Lemma field_container_spec st field supplied :
  field_container st field supplied =
  rbind (resolve st field supplied)
    (fun value =>
       if is_None value then
         match field_of st field with
         | None => Raise (no_attribute field "allow_null")
         | Some f =>
             if negb (allow_null f)
             then Raise (NullConstraintException (cannot_set f value))
             else Ok (wrap st field value)
         end
       else Ok (wrap st field value)).
Proof.
  unfold field_container, resolve, wrap,
    _FieldValue.__init__, ForeignFieldValue.__init__.
  destruct supplied as [value|]; destruct (isinstance_ForeignField st field);
    cbn [negb]; try reflexivity.
Qed.

Lemma field_container_Ok st field supplied c :
  field_container st field supplied = Ok c ->
  exists value, resolve st field supplied = Ok value /\ c = wrap st field value.
Proof.
  rewrite field_container_spec.
  destruct (resolve st field supplied) as [value|e]; simpl; [|discriminate].
  intros H. exists value. split; [reflexivity|].
  destruct (is_None value).
  - destruct (field_of st field) as [f|]; [|discriminate].
    destruct (allow_null f); simpl in H; congruence.
  - congruence.
Qed.

Lemma field_container_null st field supplied msg :
  field_container st field supplied = Raise (NullConstraintException msg) ->
  exists f, field_of st field = Some f /\ allow_null f = false
            /\ resolve st field supplied = Ok PyNone
            /\ msg = cannot_set f PyNone.
Proof.
  rewrite field_container_spec.
  destruct (resolve st field supplied) as [value|e] eqn:R; simpl.
  - destruct value; simpl; try discriminate.
    destruct (field_of st field) as [f|] eqn:F; [|discriminate].
    destruct (allow_null f) eqn:A; simpl; [discriminate|].
    intros H. injection H as <-. exists f. auto.
  - unfold resolve, getattr_default in R.
    destruct supplied; [discriminate|].
    destruct (field_of st field); [discriminate|].
    injection R as <-. discriminate.
Qed.

Lemma object_setattr_Ok self k c self' :
  object_setattr self k c = Ok self' ->
  writable k = true
  /\ self' = mk_instance (inst_class self) (dict_set (inst_dict self) k c).
Proof.
  unfold object_setattr, writable.
  destruct (String.eqb k "__class__"); [discriminate|].
  destruct (String.eqb k "__dict__"); [discriminate|].
  destruct (String.eqb k "__weakref__"); [discriminate|].
  intros H. injection H as <-. auto.
Qed.

Lemma object_setattr_writable self k c :
  writable k = true ->
  object_setattr self k c
  = Ok (mk_instance (inst_class self) (dict_set (inst_dict self) k c)).
Proof.
  unfold object_setattr, writable.
  destruct (String.eqb k "__class__"); [discriminate|].
  destruct (String.eqb k "__dict__"); [discriminate|].
  destruct (String.eqb k "__weakref__"); [discriminate|].
  reflexivity.
Qed.

Lemma object_setattr_not_null self k c msg :
  object_setattr self k c <> Raise (NullConstraintException msg).
Proof.
  unfold object_setattr.
  destruct (String.eqb k "__class__"); [discriminate|].
  destruct (String.eqb k "__dict__"); [discriminate|].
  destruct (String.eqb k "__weakref__"); discriminate.
Qed.

(** A null-constraint failure of the loop is the failure of one field's
    container. *)
Lemma set_fields_null st items :
  forall self kwargs msg,
    Table.set_fields st items self kwargs = Raise (NullConstraintException msg) ->
    exists k field f,
      In (k, field) items /\ field_of st field = Some f
      /\ allow_null f = false /\ msg = cannot_set f PyNone.
Proof.
  induction items as [|[k field] items IH]; intros self kwargs msg.
  - discriminate.
  - rewrite set_fields_cons.
    destruct (field_container st field (dict_get kwargs k)) as [c|e] eqn:C; simpl.
    + destruct (object_setattr self k c) as [self'|e] eqn:S; simpl.
      * intros H. destruct (IH _ _ _ H) as (k' & field' & f' & Hin & Hrest).
        exists k', field', f'. split; [now right|exact Hrest].
      * intros H. injection H as ->. now apply object_setattr_not_null in S.
    + intros H. injection H as ->.
      destruct (field_container_null _ _ _ _ C) as (f & Hf & Ha & _ & Hm).
      exists k, field, f. split; [now left|auto].
Qed.

(** After a loop that went through, a name outside the field set is as it
    was, and the instance is still of its class. *)
Lemma set_fields_frame st items :
  forall self kwargs self' kwargs',
    Table.set_fields st items self kwargs = Ok (self', kwargs') ->
    inst_class self' = inst_class self
    /\ forall k, ~ In k (dict_keys items) ->
         dict_get (inst_dict self') k = dict_get (inst_dict self) k.
Proof.
  induction items as [|[k0 field] items IH]; intros self kwargs self' kwargs'.
  - simpl. intros H. injection H as <- <-. auto.
  - rewrite set_fields_cons.
    destruct (field_container st field (dict_get kwargs k0)) as [c|e]; [|discriminate].
    simpl. destruct (object_setattr self k0 c) as [self1|e] eqn:S; [|discriminate].
    simpl. intros H. apply object_setattr_Ok in S as [_ ->].
    destruct (IH _ _ _ _ H) as [Hc Hd]. split; [exact Hc|].
    intros k Hk. simpl in Hk. rewrite Hd by tauto. simpl.
    apply dict_get_set_ne. tauto.
Qed.

(** After a loop that went through, every name of the field set holds the
    container of a descriptor stored under that name. *)
Lemma set_fields_containers st items :
  forall self kwargs self' kwargs',
    Table.set_fields st items self kwargs = Ok (self', kwargs') ->
    forall k, In k (dict_keys items) ->
      exists field value,
        In (k, field) items
        /\ writable k = true
        /\ dict_get (inst_dict self') k = Some (wrap st field value).
Proof.
  induction items as [|[k0 field] items IH]; intros self kwargs self' kwargs' H k Hk.
  - destruct Hk.
  - rewrite set_fields_cons in H.
    destruct (field_container st field (dict_get kwargs k0)) as [c|e] eqn:C;
      [|discriminate].
    simpl in H. destruct (object_setattr self k0 c) as [self1|e] eqn:S; [|discriminate].
    simpl in H.
    destruct (in_dec String.string_dec k (dict_keys items)) as [Hin|Hnotin].
    + destruct (IH _ _ _ _ H k Hin) as (field' & value & Hi & Hg).
      exists field', value. split; [now right|exact Hg].
    + destruct Hk as [Hk|Hk]; [|contradiction]. simpl in Hk. subst k0.
      apply field_container_Ok in C as (value & _ & ->).
      apply object_setattr_Ok in S as [Hw ->].
      destruct (set_fields_frame _ _ _ _ _ _ H) as [_ Hd].
      exists field, value. split; [now left|]. split; [exact Hw|].
      rewrite Hd by assumption. simpl. apply dict_get_set_eq.
Qed.

(** With distinct names, the container under a name is that of its
    descriptor and holds the resolved value. *)
Lemma set_fields_lookup st items :
  forall self kwargs self' kwargs',
    List.NoDup (dict_keys items) ->
    Table.set_fields st items self kwargs = Ok (self', kwargs') ->
    forall k field, In (k, field) items ->
      exists value,
        resolve st field (dict_get kwargs k) = Ok value
        /\ dict_get (inst_dict self') k = Some (wrap st field value).
Proof.
  induction items as [|[k0 field0] items IH];
    intros self kwargs self' kwargs' Hnd H k field Hin.
  - destruct Hin.
  - rewrite set_fields_cons in H.
    destruct (field_container st field0 (dict_get kwargs k0)) as [c|e] eqn:C;
      [|discriminate].
    simpl in H. destruct (object_setattr self k0 c) as [self1|e] eqn:S; [|discriminate].
    simpl in H. simpl in Hnd. inversion Hnd as [|? ? Hnotin Hnd']; subst.
    destruct Hin as [Heq|Hin].
    + injection Heq as -> ->.
      apply field_container_Ok in C as (value & R & ->).
      apply object_setattr_Ok in S as [_ ->].
      destruct (set_fields_frame _ _ _ _ _ _ H) as [_ Hd].
      exists value. split; [exact R|].
      rewrite Hd by assumption. simpl. apply dict_get_set_eq.
    + assert (Hne : k0 <> k).
      { intros ->. apply Hnotin. apply in_map_iff. exists (k, field). auto. }
      destruct (IH _ _ _ _ Hnd' H k field Hin) as (value & R & Hg).
      exists value. split; [|exact Hg].
      now rewrite dict_get_pop_ne in R.
Qed.

(** What is left of [kwargs] after the loop: the names outside the field
    set. *)
Lemma set_fields_leftover st items :
  forall self kwargs self' kwargs',
    Table.set_fields st items self kwargs = Ok (self', kwargs') ->
    forall k, dict_get kwargs' k
              = if dict_mem items k then None else dict_get kwargs k.
Proof.
  induction items as [|[k0 field] items IH]; intros self kwargs self' kwargs' H k.
  - simpl in H. injection H as <- <-. reflexivity.
  - rewrite set_fields_cons in H.
    destruct (field_container st field (dict_get kwargs k0)) as [c|e]; [|discriminate].
    simpl in H. destruct (object_setattr self k0 c) as [self1|e]; [|discriminate].
    simpl in H. rewrite (IH _ _ _ _ H k).
    unfold dict_mem. simpl.
    destruct (String.eqb_spec k0 k) as [->|Hne].
    + rewrite dict_get_pop_eq. now destruct (dict_get items k).
    + now rewrite dict_get_pop_ne.
Qed.

(** The loop goes through when every field is accepted. *)
Lemma set_fields_accepts st items :
  forall self kwargs,
    List.NoDup (dict_keys items) ->
    accepts st items kwargs = true ->
    exists self' kwargs',
      Table.set_fields st items self kwargs = Ok (self', kwargs').
Proof.
  induction items as [|[k0 field] items IH]; intros self kwargs Hnd Hacc.
  - simpl. eauto.
  - rewrite set_fields_cons. simpl in Hnd, Hacc.
    inversion Hnd as [|? ? Hnotin Hnd']; subst.
    apply andb_prop in Hacc as [H0 Hrest].
    unfold accepts_field in H0. simpl in H0.
    destruct (field_of st field) as [f|] eqn:F; [|discriminate].
    apply andb_prop in H0 as [Hw Hv].
    assert (C : exists c, field_container st field (dict_get kwargs k0) = Ok c).
    { rewrite field_container_spec. unfold resolve, getattr_default. rewrite F.
      destruct (dict_get kwargs k0) as [value|]; simpl.
      - destruct (is_None value); simpl in Hv; [rewrite Hv|]; simpl; eauto.
      - destruct (is_None (default f)); simpl in Hv; [rewrite Hv|]; simpl; eauto. }
    destruct C as [c ->]. simpl.
    rewrite (object_setattr_writable self k0 c Hw). simpl.
    apply IH; [exact Hnd'|].
    unfold accepts in *. rewrite forallb_forall in *. intros [k1 field1] Hin.
    specialize (Hrest _ Hin). unfold accepts_field in *. simpl in *.
    destruct (field_of st field1); [|discriminate].
    rewrite dict_get_pop_ne; [exact Hrest|].
    intros ->. apply Hnotin. apply in_map_iff. exists (k1, field1). auto.
Qed.

(** ** The schema composer *)

Lemma set_source_idem f s :
  _ForeignField.set_source (_ForeignField.set_source f s) s
  = _ForeignField.set_source f s.
Proof. reflexivity. Qed.

Lemma mentions_In fields a : mentions fields a = true <-> In (PyField a) fields.
Proof.
  unfold mentions. rewrite existsb_exists. split.
  - intros [v [Hin Hv]]. destruct v; try discriminate.
    apply Nat.eqb_eq in Hv. now subst.
  - intros Hin. exists (PyField a). split; [exact Hin|]. apply Nat.eqb_refl.
Qed.

(** The binding loop changes no class and changes the descriptors only by
    [set_source]: exactly the relation descriptors among [fields] get the new
    class as their source. *)
Lemma bind_sources_classes newCls fields :
  forall st, classes (_TableMeta.bind_sources newCls fields st) = classes st.
Proof.
  unfold _TableMeta.bind_sources.
  induction fields as [|v fields IH]; intros st; simpl; [reflexivity|].
  rewrite IH. destruct (isinstance_ForeignField st v); [|reflexivity].
  now destruct v.
Qed.

Lemma bind_sources_heap newCls fields :
  forall st a,
    heap (_TableMeta.bind_sources newCls fields st) !! a
    = ((fun f => if is_foreign_class (ob_class f) && mentions fields a
                 then _ForeignField.set_source f (PyClass newCls)
                 else f) <$> heap st !! a).
Proof.
  unfold _TableMeta.bind_sources.
  induction fields as [|v fields IH]; intros st a; simpl.
  - destruct (heap st !! a) as [f|]; simpl; [|reflexivity].
    now rewrite andb_false_r.
  - rewrite IH. clear IH.
    unfold isinstance_ForeignField, field_of, call_set_source.
    destruct v; simpl; try (destruct (heap st !! a); reflexivity).
    rename a0 into a'.
    destruct (heap st !! a') as [f'|] eqn:E'.
    + destruct (is_foreign_class (ob_class f')) eqn:F'; simpl.
      * destruct (Nat.eqb_spec a' a) as [->|Hne].
        -- rewrite list_lookup_alter. case_decide; [|congruence].
           rewrite E'. simpl. rewrite F'. simpl.
           destruct (mentions fields a); reflexivity.
        -- rewrite list_lookup_alter_ne by assumption.
           destruct (heap st !! a); reflexivity.
      * destruct (Nat.eqb_spec a' a) as [->|Hne].
        -- rewrite E'. simpl. rewrite F'. reflexivity.
        -- destruct (heap st !! a); reflexivity.
    + destruct (Nat.eqb_spec a' a) as [->|Hne].
      * rewrite E'. reflexivity.
      * destruct (heap st !! a); reflexivity.
Qed.

Lemma bind_sources_length newCls fields st :
  length (heap (_TableMeta.bind_sources newCls fields st)) = length (heap st).
Proof.
  apply Nat.le_antisymm.
  - destruct (Nat.le_gt_cases (length (heap (_TableMeta.bind_sources newCls fields st)))
                (length (heap st))) as [H|H]; [exact H|].
    apply lookup_lt_is_Some_2 in H. rewrite bind_sources_heap in H.
    destruct H as [x H]. rewrite lookup_ge_None_2 in H by lia. discriminate.
  - destruct (Nat.le_gt_cases (length (heap st))
                (length (heap (_TableMeta.bind_sources newCls fields st)))) as [H|H];
      [exact H|].
    apply lookup_lt_is_Some_2 in H. destruct H as [x H].
    pose proof (bind_sources_heap newCls fields st
                  (length (heap (_TableMeta.bind_sources newCls fields st)))) as B.
    rewrite H in B. rewrite lookup_ge_None_2 in B by lia. discriminate.
Qed.

(** [pass_through] never overwrites an entry of [new_attrs]. *)
Lemma pass_through_keeps attrs :
  forall new_attrs k v,
    dict_get new_attrs k = Some v ->
    dict_get (_TableMeta.pass_through attrs new_attrs) k = Some v.
Proof.
  unfold _TableMeta.pass_through.
  induction attrs as [|[k0 v0] attrs IH]; intros new_attrs k v H; simpl; [exact H|].
  apply IH.
  destruct (negb (isinstance_Field v0)); simpl; [|exact H].
  destruct (dict_mem new_attrs k0) eqn:M; simpl; [exact H|].
  rewrite dict_get_set_ne; [exact H|].
  intros ->. unfold dict_mem in M. now rewrite H in M.
Qed.

(** What a successful run of the composer does to the store. *)
Lemma TableMeta_new_Ok name bases attrs st st' c :
  _TableMeta.__new__ name bases attrs st = (st', Ok c) ->
  exists base_attrs mro,
    _TableMeta.merge_bases st bases [] = Ok base_attrs
    /\ c = length (classes st)
    /\ let _fields := dict_filter isinstance_Field
                        (dict_update base_attrs attrs) in
       let C := mk_class name bases mro
                  (_TableMeta.pass_through attrs
                     [("_fields", PyDict _fields)]) in
       st' = _TableMeta.bind_sources c (dict_values _fields)
               (mk_state (heap st) (classes st ++ [C])).
Proof.
  unfold _TableMeta.__new__, type_new.
  destruct (_TableMeta.merge_bases st bases []) as [base_attrs|e]; [|discriminate].
  destruct (all_some (map (full_mro st) bases)) as [mros|]; [|discriminate].
  destruct (c3_merge _ _) as [mro|]; [|discriminate].
  intros H. injection H as <- <-. exists base_attrs, mro. auto.
Qed.

(** The class's own [_fields] entry decides its resolved field set. *)
Lemma resolved_fields_own st c C d :
  classes st !! c = Some C ->
  dict_get (cls_dict C) "_fields" = Some (PyDict d) ->
  type_getattr st c "_fields" = Some (PyDict d) /\ resolved_fields st c = d.
Proof.
  intros HC Hd. unfold resolved_fields, type_getattr. now rewrite HC, Hd.
Qed.

Lemma resolved_fields_missing st c :
  classes st !! c = None -> resolved_fields st c = [].
Proof. intros H. unfold resolved_fields, type_getattr. now rewrite H. Qed.

Lemma resolved_fields_lt st c k v :
  dict_get (resolved_fields st c) k = Some v -> c < length (classes st).
Proof.
  intros H. destruct (classes st !! c) eqn:E.
  - now apply lookup_lt_Some in E.
  - rewrite resolved_fields_missing in H by assumption. discriminate.
Qed.

(** The new class's resolved field set is the [_fields] the composer
    computed. *)
Lemma TableMeta_new_fields name bases attrs st st' c :
  _TableMeta.__new__ name bases attrs st = (st', Ok c) ->
  exists base_attrs,
    _TableMeta.merge_bases st bases [] = Ok base_attrs
    /\ c = length (classes st)
    /\ resolved_fields st' c
       = dict_filter isinstance_Field (dict_update base_attrs attrs)
    /\ (forall a, heap st' !! a
          = ((fun f => if is_foreign_class (ob_class f)
                          && mentions (dict_values (resolved_fields st' c)) a
                       then _ForeignField.set_source f (PyClass c)
                       else f) <$> heap st !! a))
    /\ exists C, classes st' = classes st ++ [C]
                 /\ dict_get (cls_dict C) "_fields"
                    = Some (PyDict (resolved_fields st' c)).
Proof.
  intros H. apply TableMeta_new_Ok in H as (base_attrs & mro & Hm & Hc & Hst).
  cbv zeta in Hst. exists base_attrs. split; [exact Hm|]. split; [exact Hc|].
  set (fs := dict_filter isinstance_Field
               (dict_update base_attrs attrs)) in *.
  set (C := mk_class name bases mro
              (_TableMeta.pass_through attrs [("_fields", PyDict fs)]))
    in *.
  assert (Hcls : classes st' = classes st ++ [C]).
  { rewrite Hst, bind_sources_classes. reflexivity. }
  assert (HC : classes st' !! c = Some C).
  { rewrite Hcls, Hc. rewrite lookup_app_r by lia.
    now rewrite Nat.sub_diag. }
  assert (Hown : dict_get (cls_dict C) "_fields" = Some (PyDict fs)).
  { apply pass_through_keeps. reflexivity. }
  destruct (resolved_fields_own st' c C fs HC Hown) as [_ Hres].
  rewrite Hres. split; [reflexivity|]. split.
  - intros a. rewrite Hst, bind_sources_heap. reflexivity.
  - exists C. auto.
Qed.

(** ** Reachable stores *)

Lemma dict_set_In {V} (d : dict V) k v k' v' :
  In (k', v') (dict_set d k v) -> (k', v') = (k, v) \/ In (k', v') d.
Proof.
  induction d as [|[k0 v0] d IH]; simpl.
  - intros [H|[]]. left. congruence.
  - destruct (String.eqb_spec k0 k) as [->|Hne]; simpl.
    + intros [H|H]; [left; congruence|right; now right].
    + intros [H|H]; [right; now left|].
      destruct (IH H); [now left|right; now right].
Qed.

Lemma dict_update_In {V} (b : dict V) :
  forall a k v, In (k, v) (dict_update a b) -> In (k, v) a \/ In (k, v) b.
Proof.
  unfold dict_update.
  induction b as [|[k0 v0] b IH]; intros a k v H; simpl in *; [now left|].
  destruct (IH _ _ _ H) as [H1|H1]; [|right; now right].
  apply dict_set_In in H1 as [H1|H1]; [right; left; congruence|now left].
Qed.

Lemma dict_filter_In {V} (p : V -> bool) (d : dict V) k v :
  In (k, v) (dict_filter p d) -> In (k, v) d /\ p v = true.
Proof. unfold dict_filter. intros H. now apply filter_In in H. Qed.

Lemma namespace_NoDup body : List.NoDup (dict_keys (namespace_of body)).
Proof. apply dict_update_NoDup. constructor. Qed.

Lemma namespace_In body k v : In (k, v) (namespace_of body) -> In (k, v) body.
Proof. intros H. apply dict_update_In in H as [[]|H]. exact H. Qed.

(** Class attributes are read off the classes alone. *)
Lemma mro_lookup_ext st st' mro name :
  classes st = classes st' -> mro_lookup st mro name = mro_lookup st' mro name.
Proof.
  intros H. induction mro as [|b mro IH]; simpl; [reflexivity|].
  now rewrite H, IH.
Qed.

Lemma type_getattr_ext st st' c name :
  classes st = classes st' -> type_getattr st c name = type_getattr st' c name.
Proof.
  intros H. unfold type_getattr. rewrite H.
  destruct (classes st' !! c); [|reflexivity].
  now rewrite (mro_lookup_ext st st').
Qed.

Lemma resolved_fields_ext st st' c :
  classes st = classes st' -> resolved_fields st c = resolved_fields st' c.
Proof. intros H. unfold resolved_fields. now rewrite (type_getattr_ext st st'). Qed.

Lemma resolved_fields_setattr cls v st c :
  resolved_fields (type_setattr cls "_count" v st) c = resolved_fields st c.
Proof.
  unfold resolved_fields. now rewrite type_getattr_setattr_ne by discriminate.
Qed.

Lemma resolved_fields_wf st c C :
  fields_wf st -> classes st !! c = Some C ->
  dict_get (cls_dict C) "_fields" = Some (PyDict (resolved_fields st c))
  /\ List.NoDup (dict_keys (resolved_fields st c))
  /\ forall k v, In (k, v) (resolved_fields st c) ->
       exists a, v = PyField a /\ a < length (heap st).
Proof.
  intros Hwf HC. destruct (Hwf c C HC) as (d & Hd & Hnd & Hv).
  destruct (resolved_fields_own st c C d HC Hd) as [_ ->]. auto.
Qed.

Lemma resolved_fields_NoDup st c :
  fields_wf st -> List.NoDup (dict_keys (resolved_fields st c)).
Proof.
  intros Hwf. destruct (classes st !! c) as [C|] eqn:E.
  - now apply (resolved_fields_wf st c C).
  - rewrite resolved_fields_missing by assumption. constructor.
Qed.

Lemma resolved_fields_values st c k v :
  fields_wf st -> In (k, v) (resolved_fields st c) ->
  exists a, v = PyField a /\ a < length (heap st).
Proof.
  intros Hwf Hin. destruct (classes st !! c) as [C|] eqn:E.
  - now apply (resolved_fields_wf st c C Hwf E) in Hin.
  - rewrite resolved_fields_missing in Hin by assumption. destruct Hin.
Qed.

(** Defining one more class leaves the field sets of the others alone. *)
Lemma resolved_fields_app st st' C c :
  fields_wf st ->
  classes st' = classes st ++ [C] ->
  c < length (classes st) ->
  resolved_fields st' c = resolved_fields st c.
Proof.
  intros Hwf Hcls Hlt.
  destruct (lookup_lt_is_Some_2 (classes st) c Hlt) as [C0 HC0].
  destruct (resolved_fields_wf st c C0 Hwf HC0) as (Hown & _).
  assert (HC0' : classes st' !! c = Some C0).
  { rewrite Hcls. rewrite lookup_app_l by assumption. exact HC0. }
  now destruct (resolved_fields_own st' c C0 _ HC0' Hown) as [_ ->].
Qed.

(** The composer's loop over the bases computes [merged_bases]. *)
Lemma merge_bases_Ok st bases :
  forall acc r,
    _TableMeta.merge_bases st bases acc = Ok r ->
    r = fold_left (fun base_attrs base =>
                     dict_update base_attrs (resolved_fields st base)) bases acc
    /\ forall b, In b bases -> b < length (classes st).
Proof.
  induction bases as [|b bases IH]; intros acc r; simpl.
  - intros H. injection H as <-. split; [reflexivity|]. intros b [].
  - destruct (type_getattr st b "_fields") as [v|] eqn:E; [|discriminate].
    destruct v as [| | | | | | | | | | |d]; try discriminate. intros H.
    destruct (IH _ _ H) as [-> Hlt]. split.
    + assert (resolved_fields st b = d) as ->
        by (unfold resolved_fields; now rewrite E).
      reflexivity.
    + intros b' [<-|Hin]; [|auto]. now apply type_getattr_Some_lt in E.
Qed.

Lemma merged_bases_ext st st' bases :
  (forall b, In b bases -> resolved_fields st' b = resolved_fields st b) ->
  merged_bases st' bases = merged_bases st bases.
Proof.
  unfold merged_bases. generalize (@nil (string * pyval)).
  induction bases as [|b bases IH]; intros acc H; simpl; [reflexivity|].
  rewrite (H b) by now left. apply IH. intros b' Hb'. apply H. now right.
Qed.

Lemma fold_update_NoDup st bases :
  forall acc,
    List.NoDup (dict_keys acc) ->
    List.NoDup (dict_keys
      (fold_left (fun base_attrs base =>
                    dict_update base_attrs (resolved_fields st base)) bases acc)).
Proof.
  induction bases as [|b bases IH]; intros acc H; simpl; [exact H|].
  apply IH. now apply dict_update_NoDup.
Qed.

Lemma merged_bases_NoDup st bases : List.NoDup (dict_keys (merged_bases st bases)).
Proof. apply fold_update_NoDup. constructor. Qed.

Lemma fold_update_In st bases :
  forall acc k v,
    In (k, v) (fold_left (fun base_attrs base =>
                            dict_update base_attrs (resolved_fields st base))
                         bases acc) ->
    In (k, v) acc \/ exists b, In b bases /\ In (k, v) (resolved_fields st b).
Proof.
  induction bases as [|b bases IH]; intros acc k v H; simpl in *; [now left|].
  destruct (IH _ _ _ H) as [H1|(b' & Hb' & H1)].
  - apply dict_update_In in H1 as [H1|H1]; [now left|].
    right. exists b. split; [now left|exact H1].
  - right. exists b'. split; [now right|exact H1].
Qed.

Lemma merged_bases_In st bases k v :
  In (k, v) (merged_bases st bases) ->
  exists b, In b bases /\ In (k, v) (resolved_fields st b).
Proof. intros H. apply fold_update_In in H as [[]|H]. exact H. Qed.

(** The most recent holder. *)
Lemma find_ext_in {A} (p q : A -> bool) (l : list A) :
  (forall x, In x l -> p x = q x) -> List.find p l = List.find q l.
Proof.
  induction l as [|x l IH]; intros H; simpl; [reflexivity|].
  rewrite (H x) by now left. destruct (q x); [reflexivity|].
  apply IH. intros y Hy. apply H. now right.
Qed.

Lemma holds_ext st st' c a :
  resolved_fields st' c = resolved_fields st c -> holds st' c a = holds st c a.
Proof. unfold holds. now intros ->. Qed.

Lemma last_holder_ext st st' a :
  length (classes st') = length (classes st) ->
  (forall c, c < length (classes st) ->
             resolved_fields st' c = resolved_fields st c) ->
  last_holder st' a = last_holder st a.
Proof.
  intros Hlen H. unfold last_holder. rewrite Hlen.
  apply find_ext_in. intros c Hc. apply holds_ext, H.
  rewrite <- in_rev in Hc. apply in_seq in Hc. lia.
Qed.

Lemma last_holder_app st st' C a :
  fields_wf st ->
  classes st' = classes st ++ [C] ->
  last_holder st' a
  = if holds st' (length (classes st)) a
    then Some (length (classes st))
    else last_holder st a.
Proof.
  intros Hwf Hcls. unfold last_holder.
  rewrite Hcls, length_app. simpl. rewrite Nat.add_1_r, seq_S, rev_app_distr.
  simpl. destruct (holds st' (length (classes st)) a); [reflexivity|].
  apply find_ext_in. intros c Hc. apply holds_ext.
  apply (resolved_fields_app st st' C); [assumption..|].
  rewrite <- in_rev in Hc. apply in_seq in Hc. lia.
Qed.

Lemma last_holder_Some st a c :
  last_holder st a = Some c ->
  holds st c a = true /\ c < length (classes st).
Proof.
  unfold last_holder. intros H. apply find_some in H as [Hin Hh].
  split; [exact Hh|].
  rewrite <- in_rev in Hin. apply in_seq in Hin. lia.
Qed.

(** [find] on a descending range returns the largest hit. *)
Lemma find_rev_seq (p : nat -> bool) n b :
  b < n -> p b = true ->
  exists c, List.find p (rev (seq 0 n)) = Some c
            /\ b <= c /\ forall c', p c' = true -> c' < n -> c' <= c.
Proof.
  induction n as [|n IH]; intros Hb Hp; [lia|].
  rewrite seq_S, rev_app_distr. simpl.
  destruct (p n) eqn:E.
  - exists n. split; [reflexivity|]. split; [lia|]. intros; lia.
  - assert (b < n).
    { destruct (Nat.eq_dec b n) as [->|]; [congruence|lia]. }
    destruct (IH H Hp) as (c & Hf & Hle & Hmax).
    exists c. split; [exact Hf|]. split; [exact Hle|].
    intros c' Hc' Hlt. destruct (Nat.eq_dec c' n) as [->|]; [congruence|].
    apply Hmax; [exact Hc'|lia].
Qed.

(** ** The invariants hold on every reachable store *)

Lemma alloc_Ok f st st' v :
  alloc (Ok f) st = (st', Ok v) ->
  st' = mk_state (heap st ++ [f]) (classes st) /\ v = PyField (length (heap st)).
Proof. unfold alloc. intros H. injection H as <- <-. auto. Qed.

Lemma Table_new_store cls args kwargs st st' r :
  Table.new cls args kwargs st = (st', r) ->
  st' = st \/ exists v, st' = type_setattr cls "_count" v st.
Proof.
  rewrite Table_new_unfold.
  destruct (type_getattr st cls "_count") as [v|].
  - destruct (add_one v) as [v'|e]; intros H; injection H as <- _; eauto.
  - intros H. injection H as <- _. now left.
Qed.

Lemma type_setattr_lookup c name v st c' C' :
  classes (type_setattr c name v st) !! c' = Some C' ->
  exists C, classes st !! c' = Some C
            /\ cls_dict C' = if Nat.eqb c c' then dict_set (cls_dict C) name v
                             else cls_dict C.
Proof.
  intros H. pose proof (own_dict_setattr c name v st c') as E.
  rewrite H in E. destruct (classes st !! c') as [C|]; [|discriminate].
  cbn in E. injection E as E. eauto.
Qed.

Lemma type_setattr_length c name v st :
  length (classes (type_setattr c name v st)) = length (classes st).
Proof. unfold type_setattr; simpl. apply length_alter. Qed.

Lemma length_of_lookup_fmap {A} (g : nat -> A -> A) (l l' : list A) :
  (forall a, l' !! a = (g a <$> l !! a)) -> length l' = length l.
Proof.
  intros H. apply Nat.le_antisymm.
  - destruct (Nat.le_gt_cases (length l') (length l)) as [Hle|Hgt]; [exact Hle|].
    apply lookup_lt_is_Some_2 in Hgt as [x Hx]. rewrite H in Hx.
    rewrite lookup_ge_None_2 in Hx by lia. discriminate.
  - destruct (Nat.le_gt_cases (length l) (length l')) as [Hle|Hgt]; [exact Hle|].
    apply lookup_lt_is_Some_2 in Hgt as [x Hx].
    specialize (H (length l')). rewrite Hx in H.
    rewrite lookup_ge_None_2 in H by lia. discriminate.
Qed.

Section Steps.
Variables (log : list class_def) (st : state).
Hypothesis Hwf : fields_wf st.
Hypothesis Hcomp : composed log st.
Hypothesis Hsrc : sources_bound st.

(** Creating a descriptor. *)
Lemma alloc_preserves f :
  let st' := mk_state (heap st ++ [f]) (classes st) in
  fields_wf st' /\ composed log st' /\ sources_bound st'.
Proof.
  intros st'.
  assert (Hres : forall c, resolved_fields st' c = resolved_fields st c)
    by (intros c; now apply resolved_fields_ext).
  split; [|split].
  - intros c C HC. destruct (Hwf c C HC) as (d & Hd & Hnd & Hv).
    exists d. split; [exact Hd|]. split; [exact Hnd|].
    intros k v Hin. destruct (Hv k v Hin) as (a & -> & Hlt).
    exists a. split; [reflexivity|]. simpl. rewrite length_app. lia.
  - destruct Hcomp as [Hlen Hc]. split; [exact Hlen|].
    intros c d Hd. destruct (Hc c d Hd) as [Hr Hb]. split; [|exact Hb].
    rewrite Hres, Hr. f_equal. f_equal. symmetry. now apply merged_bases_ext.
  - intros a f0 c Hf0 Hforeign Hlast.
    rewrite (last_holder_ext st st') in Hlast by (auto; reflexivity).
    simpl in Hf0. destruct (heap st !! a) as [f1|] eqn:E.
    + rewrite lookup_app_l in Hf0 by (now apply lookup_lt_Some in E).
      rewrite E in Hf0. injection Hf0 as <-. now apply (Hsrc a f1 c).
    + exfalso. apply lookup_ge_None_1 in E.
      apply last_holder_Some in Hlast as [Hh _].
      unfold holds in Hh. apply mentions_In in Hh.
      unfold dict_values in Hh. apply in_map_iff in Hh as ([k v] & Hv & Hin).
      simpl in Hv. subst v.
      apply (resolved_fields_values st c k _ Hwf) in Hin as (a' & Heq & Hlt).
      injection Heq as <-. lia.
Qed.

(** Writing the counter of a class. *)
Lemma setattr_preserves cls v :
  let st' := type_setattr cls "_count" v st in
  fields_wf st' /\ composed log st' /\ sources_bound st'.
Proof.
  intros st'.
  assert (Hres : forall c, resolved_fields st' c = resolved_fields st c)
    by (intros c; apply resolved_fields_setattr).
  split; [|split].
  - intros c C' HC'. apply type_setattr_lookup in HC' as (C & HC & Hd').
    destruct (Hwf c C HC) as (d & Hd & Hnd & Hv).
    exists d. split; [|split; [exact Hnd|exact Hv]].
    rewrite Hd'. destruct (Nat.eqb cls c); [|exact Hd].
    rewrite dict_get_set_ne by discriminate. exact Hd.
  - destruct Hcomp as [Hlen Hc]. split.
    + unfold st'. now rewrite type_setattr_length.
    + intros c d Hd. destruct (Hc c d Hd) as [Hr Hb]. split; [|exact Hb].
      rewrite Hres, Hr. f_equal. f_equal. symmetry. now apply merged_bases_ext.
  - intros a f0 c Hf0 Hforeign Hlast.
    rewrite (last_holder_ext st st') in Hlast
      by (auto; apply type_setattr_length).
    now apply (Hsrc a f0 c).
Qed.

(** Defining a class. *)
Lemma class_preserves d st' c :
  body_wf st (cd_body d) ->
  class_statement (cd_name d) (cd_bases d) (cd_body d) st = (st', Ok c) ->
  fields_wf st' /\ composed (log ++ [d]) st' /\ sources_bound st'.
Proof.
  intros Hbody Hnew. unfold class_statement in Hnew.
  apply TableMeta_new_fields in Hnew
    as (base_attrs & Hmerge & Hc & Hres & Hheap & C & Hcls & Hown).
  apply merge_bases_Ok in Hmerge as [Hbase Hbases].
  change (base_attrs = merged_bases st (cd_bases d)) in Hbase. subst base_attrs.
  assert (Hlen : length (heap st') = length (heap st))
    by (eapply (length_of_lookup_fmap
                  (fun a f => if is_foreign_class (ob_class f)
                                 && mentions (dict_values (resolved_fields st' c)) a
                              then _ForeignField.set_source f (PyClass c)
                              else f)); exact Hheap).
  assert (Hold : forall c', c' < length (classes st) ->
                   resolved_fields st' c' = resolved_fields st c')
    by (intros c' Hc'; now apply (resolved_fields_app st st' C)).
  assert (Hmb : forall bases, (forall b, In b bases -> b < length (classes st)) ->
                  merged_bases st' bases = merged_bases st bases).
  { intros bases Hb. apply merged_bases_ext. intros b Hin. apply Hold. auto. }
  destruct Hcomp as [Hloglen Hcomp'].
  split; [|split].
  - intros c' C' HC'. rewrite Hcls in HC'.
    destruct (Nat.lt_ge_cases c' (length (classes st))) as [Hlt|Hge].
    + rewrite lookup_app_l in HC' by assumption.
      destruct (Hwf c' C' HC') as (d0 & Hd0 & Hnd & Hv).
      exists d0. rewrite Hlen. auto.
    + rewrite lookup_app_r in HC' by assumption.
      destruct (c' - length (classes st)) as [|n] eqn:En; [|destruct n; discriminate].
      simpl in HC'. injection HC' as <-.
      exists (resolved_fields st' c). split; [exact Hown|].
      rewrite Hres. split.
      * apply dict_filter_NoDup, dict_update_NoDup, merged_bases_NoDup.
      * intros k v Hin. apply dict_filter_In in Hin as [Hin HF].
        destruct v; try discriminate. exists a. split; [reflexivity|].
        rewrite Hlen.
        apply dict_update_In in Hin as [Hin|Hin].
        -- apply merged_bases_In in Hin as (b & _ & Hin).
           apply (resolved_fields_values st b k _ Hwf) in Hin as (a' & Heq & Hlt).
           now injection Heq as <-.
        -- apply namespace_In in Hin. now apply (Hbody k a).
  - split.
    + rewrite Hcls, !length_app. simpl. lia.
    + intros c' d' Hd'.
      destruct (Nat.lt_ge_cases c' (length log)) as [Hlt|Hge].
      * rewrite lookup_app_l in Hd' by assumption.
        destruct (Hcomp' c' d' Hd') as [Hr Hb]. split; [|exact Hb].
        rewrite Hold by lia. rewrite Hr. f_equal. f_equal. symmetry.
        apply Hmb. intros b Hin. specialize (Hb b Hin). lia.
      * rewrite lookup_app_r in Hd' by assumption.
        destruct (c' - length log) as [|n] eqn:En; [|destruct n; discriminate].
        simpl in Hd'. injection Hd' as <-.
        assert (c' = c) as -> by lia.
        split.
        -- rewrite Hres. f_equal. f_equal. symmetry. now apply Hmb.
        -- intros b Hin. specialize (Hbases b Hin). lia.
  - intros a f' c1 Hf' Hforeign Hlast.
    rewrite (last_holder_app st st' C a Hwf Hcls) in Hlast.
    rewrite Hheap in Hf'. destruct (heap st !! a) as [f0|] eqn:E; [|discriminate].
    cbn in Hf'. injection Hf' as <-. rewrite <- Hc in Hlast.
    unfold holds in Hlast.
    destruct (mentions (dict_values (resolved_fields st' c)) a) eqn:M.
    + injection Hlast as <-.
      destruct (is_foreign_class (ob_class f0)) eqn:F; simpl in *;
        [reflexivity|congruence].
    + rewrite andb_false_r in *. now apply (Hsrc a f0 c1).
Qed.

End Steps.

Theorem built_invariants log st :
  built log st -> fields_wf st /\ composed log st /\ sources_bound st.
Proof.
  induction 1 as [|log st f st' v _ IH Halloc
                  |log st d st' c _ IH Hbody Hclass
                  |log st cls args kwargs st' r _ IH Hnew].
  - split; [|split].
    + intros c C H. destruct c; discriminate.
    + split; [reflexivity|]. intros c d H. destruct c; discriminate.
    + intros a f c H. destruct a; discriminate.
  - destruct IH as (Hwf & Hcomp & Hsrc).
    apply alloc_Ok in Halloc as [-> _]. now apply alloc_preserves.
  - destruct IH as (Hwf & Hcomp & Hsrc). now apply (class_preserves log st) with c.
  - destruct IH as (Hwf & Hcomp & Hsrc).
    apply Table_new_store in Hnew as [->|[v ->]]; [auto|].
    now apply setattr_preserves.
Qed.

(** A script that runs through reaches a built store. *)
Lemma body_wfb_spec st body : body_wfb st body = true -> body_wf st body.
Proof.
  unfold body_wfb, body_wf. rewrite forallb_forall. intros H k a Hin.
  specialize (H _ Hin). simpl in H. now apply Nat.ltb_lt in H.
Qed.

Lemma run_built script :
  forall log st log' st',
    built log st -> run script log st = Some (log', st') -> built log' st'.
Proof.
  induction script as [|s script IH]; intros log st log' st' Hb Hrun; simpl in Hrun.
  - now injection Hrun as <- <-.
  - destruct s as [f|d|cls args kwargs].
    + apply (IH _ _ _ _ (built_alloc log st f _ _ Hb eq_refl) Hrun).
    + destruct (body_wfb st (cd_body d)) eqn:W; [|discriminate].
      destruct (class_statement (cd_name d) (cd_bases d) (cd_body d) st)
        as [st1 [c|e]] eqn:E; [|discriminate].
      apply (IH _ _ _ _ (built_class log st d st1 c Hb (body_wfb_spec _ _ W) E) Hrun).
    + destruct (Table.new cls args kwargs st) as [st1 r] eqn:E.
      apply (IH _ _ _ _ (built_new log st cls args kwargs st1 r Hb E) Hrun).
Qed.

Lemma example_built : built example_log example_state.
Proof. apply (run_built example_script [] empty_state); [constructor|reflexivity]. Qed.

(** ** The resolved field set, read off the class statements *)

Lemma dict_get_rev_None {V} (d : dict V) k :
  dict_get d k = None -> dict_get (rev d) k = None.
Proof.
  rewrite !dict_get_None_keys. unfold dict_keys. rewrite map_rev.
  intros H Hin. apply H. now rewrite <- in_rev in Hin.
Qed.

Lemma dict_get_rev_Some {V} (d : dict V) k v :
  dict_get d k = Some v -> exists v', dict_get (rev d) k = Some v'.
Proof.
  intros H. destruct (dict_get (rev d) k) as [v'|] eqn:E; [eauto|].
  apply dict_get_rev_None in E. rewrite rev_involutive in E. congruence.
Qed.

Lemma dict_mem_update {V} (a b : dict V) k :
  dict_mem (dict_update a b) k = dict_mem a k || dict_mem b k.
Proof.
  unfold dict_mem. rewrite dict_get_update.
  destruct (dict_get (rev b) k) as [v|] eqn:E.
  - destruct (dict_get b k) eqn:E'; [now rewrite orb_true_r|].
    apply dict_get_rev_None in E'. congruence.
  - apply dict_get_rev_None in E. rewrite rev_involutive in E. rewrite E.
    now rewrite orb_false_r.
Qed.

Section Merged.
Variable st : state.
Hypothesis Hwf : fields_wf st.

Let step := fun (base_attrs : dict pyval) (base : nat) =>
              dict_update base_attrs (resolved_fields st base).

Lemma fold_update_skip k bases :
  forall acc,
    (forall b, In b bases -> dict_get (resolved_fields st b) k = None) ->
    dict_get (fold_left step bases acc) k = dict_get acc k.
Proof.
  induction bases as [|b bases IH]; intros acc H; simpl; [reflexivity|].
  rewrite IH by (intros b' Hb'; apply H; now right).
  unfold step. rewrite dict_get_update.
  now rewrite dict_get_rev_None by (apply H; now left).
Qed.

Lemma fold_update_mem k bases :
  forall acc,
    dict_mem (fold_left step bases acc) k
    = dict_mem acc k || existsb (fun b => dict_mem (resolved_fields st b) k) bases.
Proof.
  induction bases as [|b bases IH]; intros acc; simpl.
  - now rewrite orb_false_r.
  - rewrite IH. unfold step. rewrite dict_mem_update. now rewrite orb_assoc.
Qed.

(** Later bases win: the value of a name is that of the last base that has
    it. *)
Lemma merged_bases_last k v bs1 b bs2 :
  dict_get (resolved_fields st b) k = Some v ->
  (forall b', In b' bs2 -> dict_get (resolved_fields st b') k = None) ->
  dict_get (merged_bases st (bs1 ++ b :: bs2)) k = Some v.
Proof.
  intros Hb Hlater. unfold merged_bases. rewrite fold_left_app. simpl.
  change (dict_get (fold_left step bs2 (step (fold_left step bs1 []) b)) k = Some v).
  rewrite fold_update_skip by assumption.
  unfold step. rewrite dict_get_update.
  rewrite dict_get_rev by (now apply resolved_fields_NoDup).
  now rewrite Hb.
Qed.

Lemma merged_bases_mem k b bases :
  In b bases ->
  dict_mem (resolved_fields st b) k = true ->
  dict_mem (merged_bases st bases) k = true.
Proof.
  intros Hin Hk. unfold merged_bases.
  change (dict_mem (fold_left step bases []) k = true).
  rewrite fold_update_mem. simpl. apply existsb_exists. eauto.
Qed.

Lemma merged_bases_field k v bases :
  dict_get (merged_bases st bases) k = Some v -> isinstance_Field v = true.
Proof.
  intros H. apply dict_get_In, merged_bases_In in H as (b & _ & Hin).
  now apply (resolved_fields_values st b k v Hwf) in Hin as (a & -> & _).
Qed.

End Merged.

(** The field set of a class, name by name. *)
Lemma resolved_fields_get log st c d k :
  built log st ->
  log !! c = Some d ->
  dict_get (resolved_fields st c) k =
  match dict_get (namespace_of (cd_body d)) k with
  | Some v => if isinstance_Field v then Some v else None
  | None => dict_get (merged_bases st (cd_bases d)) k
  end.
Proof.
  intros Hb Hd. destruct (built_invariants log st Hb) as (Hwf & [_ Hcomp] & _).
  destruct (Hcomp c d Hd) as [-> _].
  rewrite dict_get_filter
    by (apply dict_update_NoDup, merged_bases_NoDup).
  rewrite dict_get_update, dict_get_rev by apply namespace_NoDup.
  destruct (dict_get (namespace_of (cd_body d)) k) as [v|]; [reflexivity|].
  destruct (dict_get (merged_bases st (cd_bases d)) k) as [v|] eqn:E;
    [|reflexivity].
  now rewrite (merged_bases_field st Hwf k v _ E).
Qed.

Lemma ancestor_trans log a b c :
  ancestor log a b -> ancestor log b c -> ancestor log a c.
Proof.
  intros Hab Hbc. induction Hbc as [c|b b' c d Hd Hin Hbc IH]; [exact Hab|].
  apply (ancestor_base log a b' c d Hd Hin). now apply IH.
Qed.

(** A field declared on an ancestor is in the set unless the class or an
    ancestor rebinds its name to something that is not a descriptor. *)
Lemma resolved_fields_ancestor log st :
  built log st ->
  forall a c, ancestor log a c ->
  forall k v,
    declares log a k v ->
    isinstance_Field v = true ->
    (forall a' v', ancestor log a' c -> declares log a' k v' ->
                   isinstance_Field v' = true) ->
    dict_mem (resolved_fields st c) k = true.
Proof.
  intros Hb a c Hanc.
  destruct (built_invariants log st Hb) as (Hwf & _ & _).
  induction Hanc as [c|a b c d Hd Hin Hanc IH];
    intros k v Hdecl HF Hclean.
  - destruct Hdecl as (d & Hd & Hk).
    unfold dict_mem. rewrite (resolved_fields_get log st c d k Hb Hd), Hk.
    now rewrite HF.
  - assert (Hbk : dict_mem (resolved_fields st b) k = true).
    { apply (IH k v Hdecl HF). intros a' v' Ha' Hd'.
      apply (Hclean a' v'); [|exact Hd'].
      apply (ancestor_trans log a' b c Ha').
      apply (ancestor_base log b b c d Hd Hin). constructor. }
    unfold dict_mem. rewrite (resolved_fields_get log st c d k Hb Hd).
    destruct (dict_get (namespace_of (cd_body d)) k) as [v0|] eqn:E.
    + assert (isinstance_Field v0 = true) as ->; [|reflexivity].
      apply (Hclean c v0); [constructor|]. exists d. auto.
    + apply (merged_bases_mem st k b (cd_bases d) Hin) in Hbk.
      exact Hbk.
Qed.

(** ** Declaring descriptors *)

(** C6.  Each of the four relation kinds, constructed with
    [allow_null=False] and no default, raises [NullConstraintException] from
    its constructor, so the call never yields a descriptor: the store is
    left as it was and no class statement, let alone an instance, has been
    reached. *)
Theorem relation_without_default_rejected
    (self : field_obj) (other : pyval) (st : state) :
  let e := NullConstraintException (default_cannot_be PyNone false) in
  (OneToOneField.__init__ self other PyNone false = Raise e
   /\ OneToManyField.__init__ self other PyNone false = Raise e
   /\ ManyToOneField.__init__ self other PyNone false = Raise e
   /\ ManyToManyField.__init__ self other PyNone false = Raise e)
  /\ (alloc (OneToOneField.__init__ self other PyNone false) st = (st, Raise e)
      /\ alloc (OneToManyField.__init__ self other PyNone false) st = (st, Raise e)
      /\ alloc (ManyToOneField.__init__ self other PyNone false) st = (st, Raise e)
      /\ alloc (ManyToManyField.__init__ self other PyNone false) st = (st, Raise e)).
Proof. repeat split. Qed.

(** C7.  The five scalar kinds never raise from their constructor, whatever
    the arguments; in particular [allow_null=False] with no default yields a
    descriptor that forbids null and has a null default. *)
Theorem scalar_without_default_accepted (self : field_obj) :
  (forall default' allow_null' unique',
      let f := mk_field (ob_class self) default' allow_null' unique'
                        (_other_cls self) (_source_cls self) in
      TextField.__init__ self default' allow_null' unique' = Ok f
      /\ IntegerField.__init__ self default' allow_null' unique' = Ok f
      /\ RealField.__init__ self default' allow_null' unique' = Ok f
      /\ DateField.__init__ self default' allow_null' unique' = Ok f
      /\ DateTimeField.__init__ self default' allow_null' unique' = Ok f)
  /\ (forall unique',
        exists f,
          allow_null f = false /\ default f = PyNone
          /\ TextField.__init__ self PyNone false unique' = Ok f
          /\ IntegerField.__init__ self PyNone false unique' = Ok f
          /\ RealField.__init__ self PyNone false unique' = Ok f
          /\ DateField.__init__ self PyNone false unique' = Ok f
          /\ DateTimeField.__init__ self PyNone false unique' = Ok f).
Proof.
  split.
  - intros. repeat split.
  - intros unique'.
    exists (mk_field (ob_class self) PyNone false unique'
                     (_other_cls self) (_source_cls self)).
    repeat split.
Qed.

(** ** Value containers *)

(** C5.  For a descriptor that forbids null, both container constructors
    raise [NullConstraintException] when the resolved value (the default if
    [use_default], the caller's value otherwise) is [None].  And this is the
    only place instance data is checked: whenever a construction raises
    [NullConstraintException], it is the exception of the container of a
    field of the resolved set whose descriptor forbids null. *)
Theorem null_constraint_enforced_by_container
    (st : state) (field : pyval) (f : field_obj) (value : pyval)
    (use_default : bool) :
  field_of st field = Some f ->
  allow_null f = false ->
  (if use_default then default f else value) = PyNone ->
  _FieldValue.__init__ st field value use_default
    = Raise (NullConstraintException (cannot_set f PyNone))
  /\ ForeignFieldValue.__init__ st field value use_default
    = Raise (NullConstraintException (cannot_set f PyNone))
  /\ (forall cls args kwargs msg,
        snd (Table.new cls args kwargs st) = Raise (NullConstraintException msg) ->
        exists k field' f',
          In (k, field') (resolved_fields st cls)
          /\ field_of st field' = Some f'
          /\ allow_null f' = false
          /\ msg = cannot_set f' PyNone).
Proof.
  intros Hf Ha Hv. split; [|split].
  - unfold _FieldValue.__init__, getattr_default. rewrite Hf.
    destruct use_default; simpl in *; rewrite Hv; simpl; now rewrite Ha.
  - unfold ForeignFieldValue.__init__, getattr_default. rewrite Hf.
    destruct use_default; simpl in *; rewrite Hv; simpl; now rewrite Ha.
  - clear. intros cls args kwargs msg. rewrite Table_new_unfold.
    destruct (type_getattr st cls "_count") as [v|]; [|discriminate].
    destruct (add_one v) as [v'|e] eqn:A.
    + simpl. unfold init_outcome, resolved_fields.
      destruct args; [|discriminate].
      destruct (type_getattr st cls "_fields") as [fs|]; [|discriminate].
      destruct fs; try discriminate.
      destruct (Table.set_fields st d (mk_instance cls []) kwargs)
        as [[self kw]|e] eqn:S.
      * destruct kw; discriminate.
      * intros H. injection H as ->. now apply set_fields_null in S.
    + simpl. intros H. injection H as ->. destruct v; discriminate.
Qed.

Lemma null_constraint_enforced_by_container_witness :
  field_of example_state (PyField 1) = Some f_name
  /\ allow_null f_name = false
  /\ (if false then default f_name else PyNone) = PyNone
  /\ _FieldValue.__init__ example_state (PyField 1) PyNone false
     = Raise (NullConstraintException (cannot_set f_name PyNone)).
Proof.
  split; [reflexivity|]. split; [reflexivity|]. split; [reflexivity|].
  apply (null_constraint_enforced_by_container
           example_state (PyField 1) f_name PyNone false); reflexivity.
Defined.

(** ** Constructing instances *)

(** Once the arguments are bound, whatever they are and whatever the
    outcome, the body of [__init__] leaves the store exactly as it was except
    that [cls._count] is one more than the value [cls] had for it. *)
Lemma init_body_increments_counter
    (st : state) (cls : nat) (args : list pyval) (kwargs : dict pyval) (n : Z) :
  type_getattr st cls "_count" = Some (PyInt n) ->
  Table.new cls args kwargs st
    = (type_setattr cls "_count" (PyInt (n + 1)) st,
       init_outcome st cls args kwargs)
  /\ type_getattr (fst (Table.new cls args kwargs st)) cls "_count"
     = Some (PyInt (n + 1)).
Proof.
  intros Hn. rewrite Table_new_unfold, Hn. simpl. split; [reflexivity|].
  apply type_getattr_setattr_eq. now apply type_getattr_Some_lt in Hn.
Qed.

Lemma Table_call_bound cls args kwargs st :
  Table.call cls args kwargs st
  = if dict_mem kwargs "self"
    then (st, Raise Table.binding_error)
    else Table.new cls args kwargs st.
Proof.
  unfold Table.call, raise. now destruct (dict_mem kwargs "self").
Qed.




(** The four outcomes the claim lists, on [Person]. *)
Example construction_succeeds :
  init_outcome example_state c_Person [] [("age", PyInt 5)]
  = Ok (mk_instance c_Person
          [("_id", PyFieldValue (PyField 0) PyNone);
           ("name", PyFieldValue (PyField 1) (PyStr "anon"));
           ("age", PyFieldValue (PyField 2) (PyInt 5))]).
Proof. reflexivity. Qed.

Example construction_fails_on_positional :
  init_outcome example_state c_Person [PyInt 3] [("age", PyInt 5)]
  = Raise (AttributeError
             [Lit "Got unexpected parameter "; Interp (PyInt 3); Lit "."]).
Proof. reflexivity. Qed.

Example construction_fails_on_null :
  init_outcome example_state c_Person [] [("name", PyNone)]
  = Raise (NullConstraintException (cannot_set f_name PyNone)).
Proof. reflexivity. Qed.

Example construction_fails_on_unknown_name :
  init_outcome example_state c_Person [] [("nickname", PyStr "x")]
  = Raise (TypeError [Lit "'dict_keys' object is not subscriptable"]).
Proof. reflexivity. Qed.

(** C2.  When every known field is processed without error and [kwargs]
    holds a name outside the resolved field set, the construction raises
    [TypeError]: building the message of the intended [AttributeError]
    subscripts [kwargs.keys()], which a [dict_keys] view does not support.
    The error raised is not the unknown-field error and names no key. *)
Theorem unknown_keyword_raises_TypeError
    (st : state) (cls : nat) (n : Z) (items kwargs : dict pyval) :
  type_getattr st cls "_count" = Some (PyInt n) ->
  type_getattr st cls "_fields" = Some (PyDict items) ->
  List.NoDup (dict_keys items) ->
  accepts st items kwargs = true ->
  (exists k, dict_mem kwargs k = true /\ dict_mem items k = false) ->
  snd (Table.new cls [] kwargs st)
  = Raise (TypeError [Lit "'dict_keys' object is not subscriptable"]).
Proof.
  intros Hn Hf Hnd Hacc (k & Hk & Hnk).
  rewrite Table_new_unfold, Hn. simpl. rewrite Hf.
  destruct (set_fields_accepts st items (mk_instance cls []) kwargs Hnd Hacc)
    as (self' & kwargs' & S).
  rewrite S. pose proof (set_fields_leftover _ _ _ _ _ _ S k) as L.
  rewrite Hnk in L. unfold dict_mem in Hk.
  destruct kwargs' as [|kv kwargs']; [|reflexivity].
  simpl in L. rewrite <- L in Hk. discriminate.
Qed.

Lemma unknown_keyword_raises_TypeError_witness :
  type_getattr example_state c_Person "_count" = Some (PyInt 0)
  /\ type_getattr example_state c_Person "_fields"
     = Some (PyDict [("_id", PyField 0); ("name", PyField 1); ("age", PyField 2)])
  /\ accepts example_state
       [("_id", PyField 0); ("name", PyField 1); ("age", PyField 2)]
       [("nickname", PyStr "x")] = true
  /\ dict_mem [("nickname", PyStr "x")] "nickname" = true
  /\ snd (Table.new c_Person [] [("nickname", PyStr "x")] example_state)
     = Raise (TypeError [Lit "'dict_keys' object is not subscriptable"]).
Proof.
  split; [reflexivity|]. split; [reflexivity|]. split; [reflexivity|].
  split; [reflexivity|].
  apply (unknown_keyword_raises_TypeError example_state c_Person 0
           [("_id", PyField 0); ("name", PyField 1); ("age", PyField 2)]
           [("nickname", PyStr "x")]).
  - reflexivity.
  - reflexivity.
  - repeat constructor; simpl; intuition discriminate.
  - reflexivity.
  - exists "nickname". split; reflexivity.
Defined.

(** Once the arguments are bound: a scalar descriptor that forbids null and
    has a non-null default, left out of [kwargs], gets a container with the
    default, which reads back, when every other field is accepted and no
    name is unknown. *)
Lemma init_body_omitted_scalar_reads_default
    (st : state) (cls : nat) (n : Z) (items kwargs : dict pyval)
    (k : string) (field : pyval) (f : field_obj) :
  type_getattr st cls "_count" = Some (PyInt n) ->
  type_getattr st cls "_fields" = Some (PyDict items) ->
  List.NoDup (dict_keys items) ->
  In (k, field) items ->
  field_of st field = Some f ->
  is_scalar_kind (ob_class f) = true ->
  allow_null f = false ->
  default f <> PyNone ->
  dict_get kwargs k = None ->
  writable k = true ->
  (forall item, In item items -> fst item <> k ->
                accepts_field st kwargs item = true) ->
  (forall k', dict_mem kwargs k' = true -> dict_mem items k' = true) ->
  exists st' self,
    Table.new cls [] kwargs st = (st', Ok self)
    /\ dict_get (inst_dict self) k = Some (PyFieldValue field (default f))
    /\ Table.__getattribute__ st' self k = Ok (default f).
Proof.
  intros Hn Hf Hnd Hin Hfield Hscalar Hnull Hdef Hk Hw Hothers Hknown.
  assert (Hacc : accepts st items kwargs = true).
  { unfold accepts. apply forallb_forall. intros [k1 field1] Hin1.
    destruct (String.eqb_spec k1 k) as [->|Hne].
    - assert (field1 = field) as ->.
      { apply (In_dict_get _ _ _ Hnd) in Hin1.
        apply (In_dict_get _ _ _ Hnd) in Hin. congruence. }
      unfold accepts_field. simpl. rewrite Hfield, Hk, Hw.
      destruct (default f); simpl; congruence.
    - now apply Hothers. }
  destruct (set_fields_accepts st items (mk_instance cls []) kwargs Hnd Hacc)
    as (self & kwargs' & S).
  assert (kwargs' = []) as ->.
  { destruct kwargs' as [|[k1 v1] kwargs']; [reflexivity|].
    pose proof (set_fields_leftover _ _ _ _ _ _ S k1) as L.
    simpl in L. rewrite String.eqb_refl in L.
    destruct (dict_mem items k1) eqn:M; [discriminate|].
    assert (dict_mem kwargs k1 = true) as Hm
      by (unfold dict_mem; now rewrite <- L).
    apply Hknown in Hm. congruence. }
  destruct (set_fields_lookup _ _ _ _ _ _ Hnd S k field Hin) as (value & R & G).
  unfold resolve, getattr_default in R. rewrite Hk, Hfield in R.
  injection R as <-.
  assert (Hwrap : wrap st field (default f) = PyFieldValue field (default f)).
  { unfold wrap, isinstance_ForeignField. rewrite Hfield.
    destruct (ob_class f); try discriminate; reflexivity. }
  rewrite Hwrap in G.
  exists (type_setattr cls "_count" (PyInt (n + 1)) st), self.
  split; [|split; [exact G|]].
  - rewrite Table_new_unfold, Hn. simpl. now rewrite Hf, S.
  - unfold Table.__getattribute__, object_getattribute.
    unfold writable in Hw.
    destruct (String.eqb k "__class__"); [discriminate|].
    destruct (String.eqb k "__dict__"); [discriminate|].
    destruct (String.eqb k "__weakref__"); [discriminate|].
    now rewrite G.
Qed.



(** ** Reading attributes *)

Lemma getattribute_of_dict st self k v :
  writable k = true ->
  dict_get (inst_dict self) k = Some v ->
  object_getattribute st self k = Ok v.
Proof.
  unfold object_getattribute, writable. intros Hw G.
  destruct (String.eqb k "__class__"); [discriminate|].
  destruct (String.eqb k "__dict__"); [discriminate|].
  destruct (String.eqb k "__weakref__"); [discriminate|].
  now rewrite G.
Qed.

(** C1, as stated, fails on relation fields: [ForeignFieldValue] is not a
    [_FieldValue], so reading the relation field [owner] of
    [Profile(owner=o)] returns the container, not [o]. *)
Lemma relation_read_returns_the_container :
  snd profile_of = Ok (built_instance profile_of)
  /\ dict_get (resolved_fields example_state c_Profile) "owner" = Some (PyField 4)
  /\ isinstance_ForeignField example_state (PyField 4) = true
  /\ dict_get (inst_dict (built_instance profile_of)) "owner"
     = Some (PyForeignFieldValue (PyField 4) some_person)
  /\ Table.__getattribute__ (after profile_of) (built_instance profile_of) "owner"
     = Ok (PyForeignFieldValue (PyField 4) some_person)
  /\ Table.__getattribute__ (after profile_of) (built_instance profile_of) "owner"
     <> Ok some_person.
Proof. repeat split; discriminate. Qed.

(** C1, amended.  On a constructed instance, every name of the resolved
    field set holds the container of a descriptor stored under that name.
    Reading the name returns the wrapped value when the descriptor is not a
    relation descriptor (the identifier [_id] included), and the
    [ForeignFieldValue] container itself when it is.  Any attribute whose
    stored value is not a [_FieldValue] (a method, a class-level constant)
    is returned as [object.__getattribute__] gives it. *)
Theorem field_read_unwraps_scalar
    (st : state) (cls : nat) (args : list pyval) (kwargs : dict pyval)
    (st' : state) (self : instance) :
  Table.new cls args kwargs st = (st', Ok self) ->
  (forall k, In k (dict_keys (resolved_fields st cls)) ->
     exists field value,
       In (k, field) (resolved_fields st cls)
       /\ dict_get (inst_dict self) k = Some (wrap st' field value)
       /\ Table.__getattribute__ st' self k
          = Ok (if isinstance_ForeignField st' field
                then PyForeignFieldValue field value
                else value))
  /\ (forall item value,
        object_getattribute st' self item = Ok value ->
        isinstance_FieldValue value = false ->
        Table.__getattribute__ st' self item = Ok value).
Proof.
  intros Hnew. split.
  - rewrite Table_new_unfold in Hnew.
    destruct (type_getattr st cls "_count") as [v|]; [|discriminate].
    destruct (add_one v) as [v'|e]; [|discriminate].
    injection Hnew as <- Hout.
    unfold init_outcome in Hout. unfold resolved_fields.
    destruct args; [|discriminate].
    destruct (type_getattr st cls "_fields") as [fs|]; [|discriminate].
    destruct fs; try discriminate.
    destruct (Table.set_fields st d (mk_instance cls []) kwargs)
      as [[self0 kw]|e] eqn:S; [|discriminate].
    destruct kw; [|discriminate]. injection Hout as ->.
    intros k Hk.
    destruct (set_fields_containers _ _ _ _ _ _ S k Hk)
      as (field & value & Hin & Hw & G).
    exists field, value.
    assert (Hwrap : wrap (type_setattr cls "_count" v' st) field value
                    = wrap st field value).
    { unfold wrap. now rewrite (isinstance_ForeignField_ext _ st). }
    split; [exact Hin|]. split; [now rewrite Hwrap|].
    unfold Table.__getattribute__.
    rewrite (getattribute_of_dict _ _ _ _ Hw G). simpl.
    rewrite (isinstance_ForeignField_ext _ st) by reflexivity.
    unfold wrap. now destruct (isinstance_ForeignField st field).
  - intros item value Hget Hnot. unfold Table.__getattribute__.
    rewrite Hget. simpl. destruct value; try reflexivity. discriminate.
Qed.

Lemma field_read_unwraps_scalar_witness :
  Table.new c_Person [] [("age", PyInt 5)] example_state
  = (after person_5, Ok (built_instance person_5))
  /\ Table.__getattribute__ (after person_5) (built_instance person_5) "name"
     = Ok (PyStr "anon")
  /\ Table.__getattribute__ (after person_5) (built_instance person_5) "_id"
     = Ok PyNone
  /\ Table.__getattribute__ (after person_5) (built_instance person_5) "fields"
     = Ok (PyBoundMethod "fields").
Proof.
  split; [reflexivity|].
  destruct (field_read_unwraps_scalar example_state c_Person []
              [("age", PyInt 5)] (after person_5) (built_instance person_5)
              eq_refl) as [_ Hother].
  split; [reflexivity|]. split; [reflexivity|].
  apply Hother; reflexivity.
Defined.

(** ** Binding relation descriptors *)

(** C4.  A relation descriptor that a base holds under a name and that the
    new type holds under the same name (inherited, not redeclared) has the
    new type as its source once the type is defined; the new type is not the
    base. *)
Theorem inherited_relation_rebound
    (st : state) (name : string) (bases : list nat) (attrs : dict pyval)
    (st' : state) (c b : nat) (k : string) (field : pyval) :
  _TableMeta.__new__ name bases attrs st = (st', Ok c) ->
  In b bases ->
  dict_get (resolved_fields st b) k = Some field ->
  dict_get (resolved_fields st' c) k = Some field ->
  isinstance_ForeignField st field = true ->
  exists f,
    field_of st' field = Some f
    /\ _source_cls f = PyClass c
    /\ c <> b.
Proof.
  intros Hnew _ Hb Hc Hforeign.
  apply TableMeta_new_fields in Hnew
    as (base_attrs & _ & Hlen & _ & Hheap & _).
  unfold isinstance_ForeignField, field_of in Hforeign.
  destruct field as [| | | | | | | |a| | |]; try discriminate.
  destruct (heap st !! a) as [f0|] eqn:E; [|discriminate].
  exists (_ForeignField.set_source f0 (PyClass c)).
  split; [|split].
  - simpl. rewrite Hheap, E. simpl. rewrite Hforeign.
    apply dict_values_In, mentions_In in Hc. now rewrite Hc.
  - reflexivity.
  - apply resolved_fields_lt in Hb. lia.
Qed.

(** * Further properties of the module *)

(** ** [Table.__init__] *)



Lemma Table_new_Ok cls args kwargs st st' self :
  Table.new cls args kwargs st = (st', Ok self) ->
  args = []
  /\ heap st' = heap st
  /\ exists kwargs',
       Table.set_fields st (resolved_fields st cls) (mk_instance cls []) kwargs
       = Ok (self, kwargs')
       /\ kwargs' = [].
Proof.
  rewrite Table_new_unfold.
  destruct (type_getattr st cls "_count") as [v|]; [|discriminate].
  destruct (add_one v) as [v'|e]; [|discriminate].
  intros H. injection H as <- Hout.
  unfold init_outcome in Hout. unfold resolved_fields.
  destruct args; [|discriminate].
  destruct (type_getattr st cls "_fields") as [fs|]; [|discriminate].
  destruct fs; try discriminate.
  destruct (Table.set_fields st d (mk_instance cls []) kwargs)
    as [[self0 kw]|e] eqn:S; [|discriminate].
  destruct kw; [|discriminate]. injection Hout as ->.
  split; [reflexivity|]. split; [reflexivity|]. exists []. auto.
Qed.



(** X3.  On a reachable store, a value given for a field reads back: as it
    was given when the descriptor is not a relation descriptor, inside its
    [ForeignFieldValue] when it is. *)
Theorem supplied_value_reads_back
    (log : list class_def) (st : state) (cls : nat) (args : list pyval)
    (kwargs : dict pyval) (st' : state) (self : instance)
    (k : string) (field value : pyval) :
  built log st ->
  Table.new cls args kwargs st = (st', Ok self) ->
  dict_get (resolved_fields st cls) k = Some field ->
  dict_get kwargs k = Some value ->
  Table.__getattribute__ st' self k
  = Ok (if isinstance_ForeignField st field
        then PyForeignFieldValue field value
        else value).
Proof.
  intros Hb Hnew Hk Hv.
  destruct (built_invariants log st Hb) as (Hwf & _ & _).
  apply Table_new_Ok in Hnew as (_ & _ & kwargs' & S & _).
  pose proof (resolved_fields_NoDup st cls Hwf) as Hnd.
  destruct (set_fields_lookup _ _ _ _ _ _ Hnd S k field (dict_get_In _ _ _ Hk))
    as (value' & R & G).
  rewrite Hv in R. simpl in R. injection R as <-.
  assert (Hin : In k (dict_keys (resolved_fields st cls))).
  { apply dict_mem_keys. unfold dict_mem. now rewrite Hk. }
  destruct (set_fields_containers _ _ _ _ _ _ S k Hin) as (_ & _ & _ & Hw & _).
  unfold Table.__getattribute__.
  rewrite (getattribute_of_dict st' self k _ Hw G). simpl.
  unfold wrap. now destruct (isinstance_ForeignField st field).
Qed.

Lemma supplied_value_reads_back_witness :
  Table.new c_Person [] [("age", PyInt 5)] example_state
  = (after person_5, Ok (built_instance person_5))
  /\ dict_get (resolved_fields example_state c_Person) "age" = Some (PyField 2)
  /\ Table.__getattribute__ (after person_5) (built_instance person_5) "age"
     = Ok (PyInt 5).
Proof.
  split; [reflexivity|]. split; [reflexivity|].
  apply (supplied_value_reads_back example_log example_state c_Person []
           [("age", PyInt 5)] (after person_5) (built_instance person_5)
           "age" (PyField 2) (PyInt 5)).
  - exact example_built.
  - reflexivity.
  - reflexivity.
  - reflexivity.
Defined.

Lemma field_container_nonnull st field supplied c :
  field_container st field supplied = Ok c ->
  exists value,
    c = wrap st field value
    /\ forall f, field_of st field = Some f -> allow_null f = false ->
                 value <> PyNone.
Proof.
  rewrite field_container_spec.
  destruct (resolve st field supplied) as [value|e]; simpl; [|discriminate].
  intros H. exists value.
  destruct (is_None value) eqn:N.
  - destruct (field_of st field) as [f|]; [|discriminate].
    destruct (allow_null f) eqn:A; simpl in H; [|discriminate].
    injection H as <-. split; [reflexivity|]. intros f0 Hf0 Hn. congruence.
  - injection H as <-. split; [reflexivity|]. intros f0 _ _ ->. discriminate.
Qed.

Lemma set_fields_nonnull st items :
  forall self kwargs self' kwargs',
    Table.set_fields st items self kwargs = Ok (self', kwargs') ->
    forall k, In k (dict_keys items) ->
      exists field value,
        In (k, field) items
        /\ dict_get (inst_dict self') k = Some (wrap st field value)
        /\ forall f, field_of st field = Some f -> allow_null f = false ->
                     value <> PyNone.
Proof.
  induction items as [|[k0 field] items IH]; intros self kwargs self' kwargs' H k Hk.
  - destruct Hk.
  - rewrite set_fields_cons in H.
    destruct (field_container st field (dict_get kwargs k0)) as [c|e] eqn:C;
      [|discriminate].
    simpl in H. destruct (object_setattr self k0 c) as [self1|e] eqn:S; [|discriminate].
    simpl in H.
    destruct (in_dec String.string_dec k (dict_keys items)) as [Hin|Hnotin].
    + destruct (IH _ _ _ _ H k Hin) as (field' & value & Hi & Hg).
      exists field', value. split; [now right|exact Hg].
    + destruct Hk as [Hk|Hk]; [|contradiction]. simpl in Hk. subst k0.
      apply field_container_nonnull in C as (value & -> & Hnn).
      apply object_setattr_Ok in S as [_ ->].
      destruct (set_fields_frame _ _ _ _ _ _ H) as [_ Hd].
      exists field, value. split; [now left|]. split; [|exact Hnn].
      rewrite Hd by assumption. simpl. apply dict_get_set_eq.
Qed.

(** X4.  A constructed instance never holds [None] for a field whose
    descriptor forbids null: under every name of the resolved field set it
    holds a container, and the container's value is not [None] when the
    descriptor has [allow_null=False]. *)
Theorem no_null_in_non_nullable_field
    (st : state) (cls : nat) (args : list pyval) (kwargs : dict pyval)
    (st' : state) (self : instance) (k : string) :
  Table.new cls args kwargs st = (st', Ok self) ->
  In k (dict_keys (resolved_fields st cls)) ->
  exists field value,
    In (k, field) (resolved_fields st cls)
    /\ dict_get (inst_dict self) k = Some (wrap st field value)
    /\ container_value (wrap st field value) = Some value
    /\ forall f, field_of st field = Some f -> allow_null f = false ->
                 value <> PyNone.
Proof.
  intros H Hk. apply Table_new_Ok in H as (_ & _ & kwargs' & S & _).
  destruct (set_fields_nonnull _ _ _ _ _ _ S k Hk) as (field & value & Hin & G & Hnn).
  exists field, value. split; [exact Hin|]. split; [exact G|]. split; [|exact Hnn].
  unfold wrap. now destruct (isinstance_ForeignField st field).
Qed.

Lemma no_null_in_non_nullable_field_witness :
  Table.new c_Person [] [("age", PyInt 5)] example_state
  = (after person_5, Ok (built_instance person_5))
  /\ In "name" (dict_keys (resolved_fields example_state c_Person))
  /\ exists field value,
       In ("name", field) (resolved_fields example_state c_Person)
       /\ dict_get (inst_dict (built_instance person_5)) "name"
          = Some (wrap example_state field value)
       /\ container_value (wrap example_state field value) = Some value
       /\ forall f, field_of example_state field = Some f ->
                    allow_null f = false -> value <> PyNone.
Proof.
  split; [reflexivity|].
  assert (Hin : In "name" (dict_keys (resolved_fields example_state c_Person)))
    by (simpl; tauto).
  split; [exact Hin|].
  exact (no_null_in_non_nullable_field example_state c_Person []
           [("age", PyInt 5)] (after person_5) (built_instance person_5)
           "name" eq_refl Hin).
Defined.

(** X5.  A construction, whatever its outcome, writes nothing but the
    counter of the class that is called: the descriptors, the number of
    classes, every class other than the one called, every class attribute
    other than [_count] and every resolved field set are as before. *)
Theorem construction_only_writes_the_counter
    (st : state) (cls : nat) (args : list pyval) (kwargs : dict pyval) :
  let st' := fst (Table.new cls args kwargs st) in
  heap st' = heap st
  /\ length (classes st') = length (classes st)
  /\ (forall c, c <> cls -> classes st' !! c = classes st !! c)
  /\ (forall c name, name <> "_count" ->
                     type_getattr st' c name = type_getattr st c name)
  /\ (forall c, resolved_fields st' c = resolved_fields st c).
Proof.
  destruct (Table.new cls args kwargs st) as [st1 r] eqn:E. simpl.
  apply Table_new_store in E as [->|[v ->]].
  - repeat split; reflexivity.
  - split; [reflexivity|]. split; [apply type_setattr_length|]. split; [|split].
    + intros c Hc. unfold type_setattr. simpl.
      apply list_lookup_alter_ne. congruence.
    + intros c name Hname. apply type_getattr_setattr_ne. congruence.
    + intros c. apply resolved_fields_setattr.
Qed.

Lemma type_getattr_via_base st sub Sub cls C rest name v :
  classes st !! sub = Some Sub ->
  dict_get (cls_dict Sub) name = None ->
  cls_mro Sub = cls :: rest ->
  classes st !! cls = Some C ->
  dict_get (cls_dict C) name = Some v ->
  type_getattr st sub name = Some v.
Proof.
  intros HSub Hnone Hmro HC Hv. unfold type_getattr.
  rewrite HSub, Hnone, Hmro. simpl. now rewrite HC, Hv.
Qed.



(** ** Introspection *)



(** ** [_TableMeta.__new__] *)

Lemma pass_through_get attrs :
  List.NoDup (dict_keys attrs) ->
  forall new_attrs k,
    dict_get (_TableMeta.pass_through attrs new_attrs) k =
    match dict_get new_attrs k with
    | Some v => Some v
    | None =>
        match dict_get attrs k with
        | Some v => if isinstance_Field v then None else Some v
        | None => None
        end
    end.
Proof.
  unfold _TableMeta.pass_through.
  induction attrs as [|[k0 v0] attrs IH]; intros Hnd new_attrs k; simpl.
  - now destruct (dict_get new_attrs k).
  - inversion Hnd as [|? ? Hnotin Hnd']; subst.
    rewrite (IH Hnd'). clear IH.
    apply dict_get_None_keys in Hnotin.
    destruct (String.eqb_spec k0 k) as [->|Hne].
    + rewrite Hnotin. unfold dict_mem.
      destruct (dict_get new_attrs k) as [v|] eqn:E; simpl.
      * rewrite andb_false_r. now rewrite E.
      * rewrite andb_true_r.
        destruct (isinstance_Field v0); simpl; [now rewrite E|].
        now rewrite dict_get_set_eq.
    + destruct (negb (isinstance_Field v0) && negb (dict_mem new_attrs k0));
        [|reflexivity].
      now rewrite dict_get_set_ne.
Qed.



(** X9.  Defining a class changes descriptors in one way only: a relation
    descriptor held by the new class's resolved field set gets the new class
    as its source.  Every other attribute of every descriptor, the source of
    every descriptor the new class does not hold and of every scalar
    descriptor, and the number of descriptors are as before. *)
Theorem composer_rebinds_exactly_the_held_relations
    (st : state) (name : string) (bases : list nat) (attrs : dict pyval)
    (st' : state) (c : nat) (a : nat) (f : field_obj) :
  _TableMeta.__new__ name bases attrs st = (st', Ok c) ->
  heap st !! a = Some f ->
  length (heap st') = length (heap st)
  /\ exists f',
       heap st' !! a = Some f'
       /\ ob_class f' = ob_class f
       /\ default f' = default f
       /\ allow_null f' = allow_null f
       /\ unique f' = unique f
       /\ _other_cls f' = _other_cls f
       /\ _source_cls f' = if is_foreign_class (ob_class f) && holds st' c a
                           then PyClass c
                           else _source_cls f.
Proof.
  intros Hnew Hf.
  apply TableMeta_new_fields in Hnew as (_ & _ & _ & _ & Hheap & _).
  split.
  - apply (length_of_lookup_fmap
             (fun a f => if is_foreign_class (ob_class f)
                            && mentions (dict_values (resolved_fields st' c)) a
                         then _ForeignField.set_source f (PyClass c)
                         else f)).
    exact Hheap.
  - rewrite Hheap, Hf. simpl. unfold holds.
    destruct (is_foreign_class (ob_class f)
              && mentions (dict_values (resolved_fields st' c)) a);
      eexists; repeat split.
Qed.

Lemma composer_rebinds_exactly_the_held_relations_witness :
  heap before_PublicProfile !! 4 = Some (_ForeignField.set_source f_owner (PyClass c_Profile))
  /\ (_source_cls <$> heap example_state !! 4) = Some (PyClass c_PublicProfile)
  /\ exists f',
       heap (fst (_TableMeta.__new__ "PublicProfile" [c_Profile]
                    (namespace_of [("visible", PyBool true)])
                    before_PublicProfile)) !! 4 = Some f'
       /\ _source_cls f' = PyClass c_PublicProfile.
Proof.
  split; [reflexivity|]. split; [reflexivity|].
  destruct (composer_rebinds_exactly_the_held_relations
              before_PublicProfile "PublicProfile" [c_Profile]
              (namespace_of [("visible", PyBool true)]) _ c_PublicProfile 4
              (_ForeignField.set_source f_owner (PyClass c_Profile))
              eq_refl eq_refl)
    as (_ & f' & Hf' & _ & _ & _ & _ & _ & Hs).
  exists f'. split; [exact Hf'|]. rewrite Hs. reflexivity.
Defined.

(** X10.  A class statement that raises leaves the store as it was: no
    class is added and no descriptor is rebound. *)
Theorem failed_class_statement_changes_nothing
    (st : state) (name : string) (bases : list nat) (attrs : dict pyval)
    (st' : state) (e : exn) :
  _TableMeta.__new__ name bases attrs st = (st', Raise e) ->
  st' = st.
Proof.
  unfold _TableMeta.__new__, type_new.
  destruct (_TableMeta.merge_bases st bases []) as [base_attrs|e0].
  - destruct (all_some (map (full_mro st) bases)) as [mros|].
    + destruct (c3_merge _ _) as [mro|]; [discriminate|].
      intros H. now injection H as <- _.
    + intros H. now injection H as <- _.
  - intros H. now injection H as <- _.
Qed.

(** A base that is not an entity type (here a class that does not exist) has
    no [_fields]. *)
Lemma failed_class_statement_changes_nothing_witness :
  _TableMeta.__new__ "Orphan" [c_Person; 99] [("owner", PyField 4)] example_state
  = (fst (_TableMeta.__new__ "Orphan" [c_Person; 99] [("owner", PyField 4)]
            example_state),
     Raise (no_attribute (PyClass 99) "_fields"))
  /\ fst (_TableMeta.__new__ "Orphan" [c_Person; 99] [("owner", PyField 4)]
            example_state) = example_state.
Proof.
  split; [reflexivity|].
  apply (failed_class_statement_changes_nothing example_state "Orphan"
           [c_Person; 99] [("owner", PyField 4)] _
           (no_attribute (PyClass 99) "_fields")).
  reflexivity.
Defined.

(** X11.  On a reachable store the resolved field set of a class is, name by
    name, what its statement says: a name the body binds to a descriptor has
    that descriptor; a name the body binds to anything else is absent, even
    if a base has it; a name the body does not bind has what the bases give,
    where the last base that has the name decides and a name no base has is
    absent. *)
Theorem resolved_field_set_by_name
    (log : list class_def) (st : state) (c : nat) (d : class_def) (k : string) :
  built log st ->
  log !! c = Some d ->
  dict_get (resolved_fields st c) k
  = match dict_get (namespace_of (cd_body d)) k with
    | Some v => if isinstance_Field v then Some v else None
    | None => dict_get (merged_bases st (cd_bases d)) k
    end
  /\ (forall v bs1 b bs2,
        cd_bases d = bs1 ++ b :: bs2 ->
        dict_get (resolved_fields st b) k = Some v ->
        (forall b', In b' bs2 -> dict_get (resolved_fields st b') k = None) ->
        dict_get (merged_bases st (cd_bases d)) k = Some v)
  /\ ((forall b, In b (cd_bases d) -> dict_get (resolved_fields st b) k = None) ->
      dict_get (merged_bases st (cd_bases d)) k = None).
Proof.
  intros Hb Hd. destruct (built_invariants log st Hb) as (Hwf & _ & _).
  split; [now apply (resolved_fields_get log)|]. split.
  - intros v bs1 b bs2 -> Hv Hlater. now apply merged_bases_last.
  - intros Hnone. unfold merged_bases.
    now rewrite (fold_update_skip st k (cd_bases d) [] Hnone).
Qed.

Lemma resolved_field_set_by_name_witness :
  example_log !! c_Robot = Some d_Robot
  /\ dict_get (resolved_fields example_state c_Person) "name" = Some (PyField 1)
  /\ dict_get (resolved_fields example_state c_Robot) "name" = None
  /\ dict_get (resolved_fields example_state c_Robot) "age" = Some (PyField 2).
Proof.
  split; [reflexivity|]. split; [reflexivity|].
  destruct (resolved_field_set_by_name example_log example_state c_Robot d_Robot
              "name" example_built eq_refl) as (Hname & _ & _).
  destruct (resolved_field_set_by_name example_log example_state c_Robot d_Robot
              "age" example_built eq_refl) as (_ & Hage & _).
  split; [rewrite Hname; reflexivity|].
  destruct (resolved_field_set_by_name example_log example_state c_Robot d_Robot
              "age" example_built eq_refl) as (-> & _ & _).
  apply (Hage (PyField 2) [] c_Person []); [reflexivity|reflexivity|].
  intros b' [].
Defined.

Lemma holds_lt st c a : holds st c a = true -> c < length (classes st).
Proof.
  intros H. destruct (classes st !! c) eqn:E.
  - now apply lookup_lt_Some in E.
  - unfold holds in H. rewrite resolved_fields_missing in H by assumption.
    discriminate.
Qed.

(** X12.  Descriptors are shared, not copied, and every class statement
    rebinds the ones it holds.  So on a reachable store a relation descriptor
    found in the resolved field set of a class [b] reports as its source the
    most recently defined class whose resolved field set holds that same
    descriptor; if a class defined after [b] holds it, the source is not
    [b]. *)
Theorem relation_source_is_latest_holder
    (log : list class_def) (st : state) (b : nat) (k : string) (a : nat)
    (f : field_obj) :
  built log st ->
  dict_get (resolved_fields st b) k = Some (PyField a) ->
  heap st !! a = Some f ->
  is_foreign_class (ob_class f) = true ->
  exists c,
    last_holder st a = Some c
    /\ holds st c a = true
    /\ b <= c
    /\ _source_cls f = PyClass c
    /\ (forall c', holds st c' a = true -> c' <= c)
    /\ (forall c', b < c' -> holds st c' a = true -> _source_cls f <> PyClass b).
Proof.
  intros Hb Hk Hf Hforeign.
  destruct (built_invariants log st Hb) as (_ & _ & Hsrc).
  assert (Hhb : holds st b a = true).
  { unfold holds. apply mentions_In. now apply dict_values_In in Hk. }
  destruct (find_rev_seq (fun c => holds st c a) (length (classes st)) b
              (holds_lt st b a Hhb) Hhb) as (c & Hfind & Hle & Hmax).
  assert (Hlast : last_holder st a = Some c) by exact Hfind.
  pose proof (Hsrc a f c Hf Hforeign Hlast) as Hs.
  exists c. split; [exact Hlast|].
  split; [now apply last_holder_Some in Hlast|].
  split; [exact Hle|]. split; [exact Hs|]. split.
  - intros c' Hc'. apply Hmax; [exact Hc'|now apply (holds_lt st c' a)].
  - intros c' Hlt Hc' Heq. rewrite Hs in Heq. injection Heq as ->.
    specialize (Hmax c' Hc' (holds_lt st c' a Hc')). lia.
Qed.

Lemma relation_source_is_latest_holder_witness :
  dict_get (resolved_fields example_state c_Profile) "owner" = Some (PyField 4)
  /\ dict_get (resolved_fields example_state c_PublicProfile) "owner"
     = Some (PyField 4)
  /\ exists f, heap example_state !! 4 = Some f
               /\ _source_cls f = PyClass c_PublicProfile.
Proof.
  split; [reflexivity|]. split; [reflexivity|].
  destruct (relation_source_is_latest_holder example_log example_state
              c_Profile "owner" 4
              (_ForeignField.set_source f_owner (PyClass c_PublicProfile))
              example_built eq_refl eq_refl eq_refl)
    as (c & Hlast & _ & _ & Hs & _).
  exists (_ForeignField.set_source f_owner (PyClass c_PublicProfile)).
  split; reflexivity.
Defined.

(** X13.  On a reachable store the resolved field set of a class has every
    name that the class or one of its ancestors, at any depth, binds to a
    descriptor, provided neither the class nor any of its ancestors binds
    that name to something that is not a descriptor. *)
Theorem ancestor_fields_are_inherited
    (log : list class_def) (st : state) (a c : nat) (k : string) (v : pyval) :
  built log st ->
  ancestor log a c ->
  declares log a k v ->
  isinstance_Field v = true ->
  (forall a' v', ancestor log a' c -> declares log a' k v' ->
                 isinstance_Field v' = true) ->
  dict_mem (resolved_fields st c) k = true.
Proof.
  intros Hb Hanc Hdecl HF Hclean.
  exact (resolved_fields_ancestor log st Hb a c Hanc k v Hdecl HF Hclean).
Qed.

Lemma example_ancestors_of_Dog a :
  ancestor example_log a c_Dog -> a = c_Dog \/ a = c_Person \/ a = c_Table.
Proof.
  intros H. inversion H as [|? b ? d Hd Hin Hanc]; subst; [now left|].
  injection Hd as <-. destruct Hin as [<-|[]].
  inversion Hanc as [|? b ? d Hd Hin Hanc']; subst; [tauto|].
  injection Hd as <-. destruct Hin as [<-|[]].
  inversion Hanc' as [|? b ? d Hd Hin _]; subst; [tauto|].
  injection Hd as <-. destruct Hin.
Qed.

Lemma ancestor_fields_are_inherited_witness :
  ancestor example_log c_Table c_Dog
  /\ declares example_log c_Table "_id" (PyField 0)
  /\ dict_mem (resolved_fields example_state c_Dog) "_id" = true.
Proof.
  assert (Hanc : ancestor example_log c_Table c_Dog).
  { apply (ancestor_base example_log c_Table c_Person c_Dog d_Dog);
      [reflexivity|now left|].
    apply (ancestor_base example_log c_Table c_Table c_Person d_Person);
      [reflexivity|now left|constructor]. }
  assert (Hdecl : declares example_log c_Table "_id" (PyField 0)).
  { exists d_Table. split; reflexivity. }
  split; [exact Hanc|]. split; [exact Hdecl|].
  apply (ancestor_fields_are_inherited example_log example_state c_Table c_Dog
           "_id" (PyField 0) example_built Hanc Hdecl eq_refl).
  intros a' v' Ha' (d & Hd & Hk).
  destruct (example_ancestors_of_Dog a' Ha') as [-> | [-> | ->]];
    injection Hd as <-; try discriminate Hk.
  injection Hk as <-. reflexivity.
Defined.

(** ** Descriptors and containers *)

(** X14.  A relation descriptor that its constructor returns has
    [unique=True], the target and the other arguments it was given, and no
    source yet, whatever the object held before; and it is returned only if
    null is allowed or the default is not [None]. *)
Theorem relation_constructor_result
    (cls : field_class) (self : field_obj) (other default' : pyval)
    (allow_null' : bool) (f : field_obj) :
  (cls = OneToOneField
   /\ OneToOneField.__init__ self other default' allow_null' = Ok f)
  \/ (cls = OneToManyField
      /\ OneToManyField.__init__ self other default' allow_null' = Ok f)
  \/ (cls = ManyToOneField
      /\ ManyToOneField.__init__ self other default' allow_null' = Ok f)
  \/ (cls = ManyToManyField
      /\ ManyToManyField.__init__ self other default' allow_null' = Ok f) ->
  f = mk_field (ob_class self) default' allow_null' true other PyNone
  /\ unique f = true
  /\ _other_cls f = other
  /\ _source_cls f = PyNone
  /\ (allow_null' = true \/ default' <> PyNone).
Proof.
  intros H.
  assert (E : (if negb allow_null' && is_None default'
               then Raise (NullConstraintException
                             (default_cannot_be default' allow_null'))
               else Ok (mk_field (ob_class self) default' allow_null' true
                                 other PyNone)) = Ok f).
  { destruct H as [[_ H]|[[_ H]|[[_ H]|[_ H]]]]; exact H. }
  clear H. destruct allow_null'; simpl in E.
  - injection E as <-. repeat split. now left.
  - destruct default'; simpl in E; try discriminate;
      injection E as <-; repeat split; right; discriminate.
Qed.

Lemma relation_constructor_result_witness :
  OneToOneField.__init__ (new_field OneToOneField) (PyClass c_Person) PyNone true
  = Ok f_owner
  /\ unique f_owner = true
  /\ _source_cls f_owner = PyNone.
Proof.
  split; [reflexivity|].
  destruct (relation_constructor_result OneToOneField (new_field OneToOneField)
              (PyClass c_Person) PyNone true f_owner
              (or_introl (conj eq_refl eq_refl))) as (_ & Hu & _ & Hs & _).
  split; [exact Hu|exact Hs].
Defined.

(** X15.  For a descriptor, both container constructors fail exactly when
    the resolved value is [None] and the descriptor forbids null; otherwise
    they return a container that refers to the descriptor and holds the
    resolved value.  With [use_default] the value argument is ignored. *)
Theorem container_constructor_outcome
    (st : state) (field : pyval) (f : field_obj) (value : pyval)
    (use_default : bool) :
  field_of st field = Some f ->
  let resolved := if use_default then default f else value in
  _FieldValue.__init__ st field value use_default
  = (if is_None resolved && negb (allow_null f)
     then Raise (NullConstraintException (cannot_set f resolved))
     else Ok (PyFieldValue field resolved))
  /\ ForeignFieldValue.__init__ st field value use_default
     = (if is_None resolved && negb (allow_null f)
        then Raise (NullConstraintException (cannot_set f resolved))
        else Ok (PyForeignFieldValue field resolved)).
Proof.
  intros Hf resolved.
  unfold _FieldValue.__init__, ForeignFieldValue.__init__, getattr_default.
  rewrite Hf. subst resolved.
  destruct use_default; simpl;
    [destruct (is_None (default f))|destruct (is_None value)]; simpl;
    destruct (allow_null f); auto.
Qed.

Lemma container_constructor_outcome_witness :
  field_of example_state (PyField 2) = Some f_age
  /\ _FieldValue.__init__ example_state (PyField 2) PyNone false
     = Ok (PyFieldValue (PyField 2) PyNone)
  /\ _FieldValue.__init__ example_state (PyField 2) (PyInt 7) true
     = Ok (PyFieldValue (PyField 2) (PyInt 0)).
Proof.
  split; [reflexivity|].
  destruct (container_constructor_outcome example_state (PyField 2) f_age
              PyNone false eq_refl) as [H1 _].
  destruct (container_constructor_outcome example_state (PyField 2) f_age
              (PyInt 7) true eq_refl) as [H2 _].
  split; [exact H1|exact H2].
Defined.

(** ** Field sets are never rewritten *)

(** X16.  On a reachable store, defining a class leaves every other class
    object, and so every other resolved field set, as it was: a subclass gets
    a field set of its own and its bases keep theirs. *)
Theorem class_statement_keeps_other_field_sets
    (log : list class_def) (st : state) (name : string) (bases : list nat)
    (attrs : dict pyval) (st' : state) (c c' : nat) :
  built log st ->
  _TableMeta.__new__ name bases attrs st = (st', Ok c) ->
  c' <> c ->
  classes st' !! c' = classes st !! c'
  /\ resolved_fields st' c' = resolved_fields st c'.
Proof.
  intros Hb Hnew Hne.
  destruct (built_invariants log st Hb) as (Hwf & _ & _).
  apply TableMeta_new_fields in Hnew as (_ & _ & Hc & _ & _ & C & Hcls & _).
  destruct (Nat.lt_ge_cases c' (length (classes st))) as [Hlt|Hge].
  - split.
    + rewrite Hcls. now apply lookup_app_l.
    + now apply (resolved_fields_app st st' C).
  - assert (Hnone' : classes st' !! c' = None).
    { apply lookup_ge_None_2. rewrite Hcls, length_app. simpl. lia. }
    assert (Hnone : classes st !! c' = None) by (apply lookup_ge_None_2; lia).
    split; [congruence|].
    now rewrite !resolved_fields_missing.
Qed.

Lemma class_statement_keeps_other_field_sets_witness :
  _TableMeta.__new__ "PublicProfile" [c_Profile]
    (namespace_of [("visible", PyBool true)]) before_PublicProfile
  = (fst (_TableMeta.__new__ "PublicProfile" [c_Profile]
            (namespace_of [("visible", PyBool true)]) before_PublicProfile),
     Ok c_PublicProfile)
  /\ resolved_fields
       (fst (_TableMeta.__new__ "PublicProfile" [c_Profile]
               (namespace_of [("visible", PyBool true)]) before_PublicProfile))
       c_Profile
     = resolved_fields before_PublicProfile c_Profile.
Proof.
  split; [reflexivity|].
  apply (class_statement_keeps_other_field_sets
           (firstn 4 example_log) before_PublicProfile "PublicProfile"
           [c_Profile] (namespace_of [("visible", PyBool true)]) _
           c_PublicProfile c_Profile).
  - apply (run_built (firstn 9 example_script) [] empty_state);
      [constructor|reflexivity].
  - reflexivity.
  - discriminate.
Defined.

(** ** Keyword arguments *)

Lemma dict_get_pop {V} (d : dict V) k0 k :
  dict_get (dict_pop d k0) k = if String.eqb k0 k then None else dict_get d k.
Proof.
  destruct (String.eqb_spec k0 k) as [->|Hne].
  - apply dict_get_pop_eq.
  - now apply dict_get_pop_ne.
Qed.

Lemma set_fields_same_lookups st items :
  forall self kw1 kw2,
    (forall k, dict_get kw1 k = dict_get kw2 k) ->
    match Table.set_fields st items self kw1,
          Table.set_fields st items self kw2 with
    | Ok (s1, kw1'), Ok (s2, kw2') =>
        s1 = s2 /\ forall k, dict_get kw1' k = dict_get kw2' k
    | Raise e1, Raise e2 => e1 = e2
    | _, _ => False
    end.
Proof.
  induction items as [|[k0 field] items IH]; intros self kw1 kw2 H.
  - simpl. auto.
  - rewrite !set_fields_cons, <- (H k0).
    destruct (field_container st field (dict_get kw1 k0)) as [c|e]; simpl;
      [|reflexivity].
    destruct (object_setattr self k0 c) as [self1|e]; simpl; [|reflexivity].
    apply IH. intros k. now rewrite !dict_get_pop, H.
Qed.

Lemma dict_empty_lookups {V} (d : dict V) :
  (forall k, dict_get d k = None) -> d = [].
Proof.
  destruct d as [|[k v] d]; [reflexivity|].
  intros H. specialize (H k). simpl in H. now rewrite String.eqb_refl in H.
Qed.

(** X17.  Only what [kwargs] holds for each name matters, not the order the
    keywords were written in: two keyword dictionaries with the same lookups
    give the same outcome, the same instance or the same exception, and the
    same store. *)
Theorem keyword_order_is_irrelevant
    (st : state) (cls : nat) (args : list pyval) (kw1 kw2 : dict pyval) :
  (forall k, dict_get kw1 k = dict_get kw2 k) ->
  Table.new cls args kw1 st = Table.new cls args kw2 st.
Proof.
  intros H. rewrite !Table_new_unfold.
  destruct (type_getattr st cls "_count") as [v|]; [|reflexivity].
  destruct (add_one v) as [v'|e]; [|reflexivity].
  f_equal. unfold init_outcome. destruct args; [|reflexivity].
  destruct (type_getattr st cls "_fields") as [fs|]; [|reflexivity].
  destruct fs; try reflexivity.
  pose proof (set_fields_same_lookups st d (mk_instance cls []) kw1 kw2 H) as E.
  destruct (Table.set_fields st d (mk_instance cls []) kw1) as [[s1 kw1']|e1];
    destruct (Table.set_fields st d (mk_instance cls []) kw2) as [[s2 kw2']|e2];
    try contradiction; [|now subst].
  destruct E as [-> E].
  destruct kw1' as [|[k1 v1] kw1'].
  - assert (kw2' = []) as ->; [|reflexivity].
    apply dict_empty_lookups. intros k. now rewrite <- E.
  - destruct kw2' as [|kv2 kw2']; [|reflexivity].
    specialize (E k1). simpl in E. now rewrite String.eqb_refl in E.
Qed.

Lemma keyword_order_is_irrelevant_witness :
  Table.new c_Person [] [("name", PyStr "Ann"); ("age", PyInt 30)] example_state
  = Table.new c_Person [] [("age", PyInt 30); ("name", PyStr "Ann")] example_state.
Proof.
  apply (keyword_order_is_irrelevant example_state c_Person []
           [("name", PyStr "Ann"); ("age", PyInt 30)]
           [("age", PyInt 30); ("name", PyStr "Ann")]).
  intros k. cbn [dict_get].
  destruct (String.eqb_spec "name" k) as [Hn|Hn];
    destruct (String.eqb_spec "age" k) as [Ha|Ha]; try reflexivity.
  rewrite <- Hn in Ha. discriminate Ha.
Defined.
